(** * NanoLog: the log decompressor (runtime/LogDecompressor.cc)

    A shallow embedding of [main] of [runtime/LogDecompressor.cc] and the
    properties of its command line handling and of its decode loop.

    The program reads a compressed log through a [std::ifstream], peeks the
    type of the next entry, and either decodes and prints a log message,
    reads a checkpoint, skips zero padding, or gives up.  The helpers it
    calls live in headers that are not part of this file's source
    ([BufferUtils.h], [Cycles.h] and the generated [BufferStuffer.h]); they
    are taken as the fields of the class [Headers], and the loop is verified
    for every instance of it. *)

From Stdlib Require Import ZArith List String Ascii Bool Lia PrimFloat.
From Stdlib Require Strings.Byte FloatOps SpecFloat.
Import ListNotations.

Local Open Scope string_scope.
Local Open Scope list_scope.
Local Open Scope Z_scope.

(* ================================================================== *)
(** * Machine integers *)

(** [int] is 32 bits wide, two's complement. *)
Definition INT_MAX : Z := 2147483647.
Definition INT_MIN : Z := -2147483648.

(** [uint64_t] arithmetic wraps modulo [2^64]. *)
Definition UINT64_MOD : Z := 2 ^ 64.
Definition sub64 (a b : Z) : Z := (a - b) mod UINT64_MOD.

(** The status a parent process observes for [exit(code)]: the low eight
    bits of [code]. *)
Definition exitStatus (code : Z) : Z := Z.land code 255.

(* ================================================================== *)
(** * [std::stoi] on a command line argument

    [std::stoi(str)] is [strtol(str, &end, 10)] with two checks: it throws
    [std::invalid_argument] when no character was converted, and
    [std::out_of_range] when the value does not fit an [int].  [strtol]
    skips leading white space, takes an optional sign, then the longest run
    of decimal digits; whatever follows the digits is left unread. *)

Inductive StoiResult : Type :=
| StoiValue (v : Z)
| StoiInvalidArgument
| StoiOutOfRange.

Definition isspace (c : ascii) : bool :=
  let n := Z.of_nat (nat_of_ascii c) in
  (n =? 32) || ((9 <=? n) && (n <=? 13)).

Definition isdigit (c : ascii) : bool :=
  let n := Z.of_nat (nat_of_ascii c) in
  (48 <=? n) && (n <=? 57).

Definition digitValue (c : ascii) : Z := Z.of_nat (nat_of_ascii c) - 48.

Fixpoint skipSpaces (s : string) : string :=
  match s with
  | String c r => if isspace c then skipSpaces r else s
  | EmptyString => s
  end.

(** Splits an optional sign off the front: [true] for a leading minus. *)
Definition takeSign (s : string) : bool * string :=
  match s with
  | String c r =>
      if (c =? "-")%char then (true, r)
      else if (c =? "+")%char then (false, r)
      else (false, s)
  | EmptyString => (false, s)
  end.

(** The value of the longest run of digits at the front of [s], on top of
    the digits [acc] read so far. *)
Fixpoint readDigits (acc : Z) (s : string) : Z :=
  match s with
  | String c r => if isdigit c then readDigits (10 * acc + digitValue c) r else acc
  | EmptyString => acc
  end.

Definition startsWithDigit (s : string) : bool :=
  match s with
  | String c _ => isdigit c
  | EmptyString => false
  end.

(** The part of an argument [strtol] looks at: what remains after the
    white space and the sign. *)
Definition numericPart (s : string) : string := snd (takeSign (skipSpaces s)).

Definition hasNumericPrefix (s : string) : bool := startsWithDigit (numericPart s).

Definition stoi (s : string) : StoiResult :=
  let '(negative, body) := takeSign (skipSpaces s) in
  if startsWithDigit body then
    let magnitude := readDigits 0 body in
    let v := if negative then - magnitude else magnitude in
    if (INT_MIN <=? v) && (v <=? INT_MAX) then StoiValue v else StoiOutOfRange
  else StoiInvalidArgument.

(* ================================================================== *)
(** * [std::ifstream]

    The stream is the bytes not yet extracted together with its state
    flags.  [eofbit] is raised by a read that finds no byte left, not by the
    read that extracts the last one.  Read errors of the device ([badbit])
    are outside this model. *)

Record ifstream : Type := mkStream {
  rdbuf : list Byte.byte;
  eofbit : bool;
  failbit : bool
}.

(** [traits::eof()] *)
Definition EOF : Z := -1.

Definition byteValue (b : Byte.byte) : Z := Z.of_N (Byte.to_N b).

Definition openStream (bytes : list Byte.byte) : ifstream :=
  {| rdbuf := bytes; eofbit := false; failbit := false |}.

Definition eof (s : ifstream) : bool := eofbit s.
Definition good (s : ifstream) : bool := negb (eofbit s) && negb (failbit s).

Definition setFail (s : ifstream) : ifstream :=
  {| rdbuf := rdbuf s; eofbit := eofbit s; failbit := true |}.
Definition setEof (s : ifstream) : ifstream :=
  {| rdbuf := rdbuf s; eofbit := true; failbit := failbit s |}.

(** [in.peek()]: on a stream that is not good the sentry raises [failbit]
    and the result is [EOF]; at the end of the data [eofbit] is raised;
    otherwise the next byte is returned and stays in the stream. *)
Definition peek (s : ifstream) : Z * ifstream :=
  if good s then
    match rdbuf s with
    | b :: _ => (byteValue b, s)
    | [] => (EOF, setEof s)
    end
  else (EOF, setFail s).

(** [in.get()]: extracts one byte; with none left both [eofbit] and
    [failbit] are raised. *)
Definition get (s : ifstream) : Z * ifstream :=
  if good s then
    match rdbuf s with
    | b :: r => (byteValue b, {| rdbuf := r; eofbit := eofbit s; failbit := failbit s |})
    | [] => (EOF, setFail (setEof s))
    end
  else (EOF, setFail s).

(* ================================================================== *)
(** * The types and helpers of the headers *)

(** [BufferUtils::EntryType].  An enumeration read from a stream can hold a
    value that names none of its enumerators; [main] has a branch for that
    and prints the value with [%d]. *)
Inductive EntryType : Type :=
| INVALID
| LOG_MSG
| CHECKPOINT
| UNRECOGNIZED (value : Z).

Record DecompressedMetadata : Type := mkMetadata {
  fmtId : Z;          (* uint32_t *)
  timestamp : Z       (* uint64_t *)
}.

Record Checkpoint : Type := mkCheckpoint {
  cyclesPerSecond : float
}.

(** What [main] uses from the headers it includes.  Every helper takes the
    stream by reference, so it returns the stream it leaves behind.  An
    entry of [decompressAndPrintFnArray] reads the arguments of one log
    message and prints its text, which is returned here. *)
Class Headers : Type := {
  peekEntryType : ifstream -> EntryType * ifstream;
  decompressMetadata : ifstream -> Z -> Z -> DecompressedMetadata * ifstream;
  readCheckpoint : ifstream -> Checkpoint * ifstream;
  decompressAndPrintFnArray : list (ifstream -> string * ifstream);
  toSeconds : Z -> float
}.

(* ================================================================== *)
(** * What the program prints and how it ends *)

(** One constructor per [printf] of [main], carrying the arguments of its
    format string; [MsgText] is the text printed by a table entry. *)
Inductive Output : Type :=
| Usage (program : option string)
| MallocFailed (size : Z)
| InvalidCount (arg : string)
| CountTooLarge (arg : string)
| CountNotPositive (arg : string)
| UnableToOpen (file : string)
| OpeningFile (file : string)
| MsgPrefix (index : Z) (nanoseconds : float)
| MsgText (text : string)
| FoundCheckpoint (cyclesPerSec : float)
| NoSuchEntryType (value : Z)
| Complete (count : Z).

(** Behaviour the language leaves undefined. *)
Inductive Undefinedness : Type :=
| TableIndexOutOfRange (index : Z)
| SignedOverflow.

Inductive Outcome : Type :=
| Return (code : Z)
| Exit (code : Z)
| Undefined (why : Undefinedness)
| OutOfFuel.

Definition Result : Type := (Outcome * list Output)%type.

(** The environment of a run: whether [calloc] succeeds, and the content of
    the files that can be opened. *)
Record Env : Type := mkEnv {
  callocOk : bool;
  fileContent : string -> option (list Byte.byte)
}.

Definition bufferSize : Z := Z.shiftl 1 26.

(* ================================================================== *)
(** * [main] *)

Section Decompressor.

Context {headers : Headers}.

(** The locals of [main] that live across iterations of the decode loop,
    and the text printed so far. *)
Record Decoder : Type := mkDecoder {
  in_ : ifstream;
  linesPrinted : Z;        (* int *)
  lastFmtId : Z;           (* uint32_t *)
  lastTimestamp : Z;       (* uint64_t *)
  printed : list Output
}.

(** [decompressAndPrintFnArray[i]]: an array has no entry outside its
    bounds, and [main] does not test [i] before it indexes. *)
Definition tableEntry (i : Z) : option (ifstream -> string * ifstream) :=
  if i <? 0 then None else nth_error decompressAndPrintFnArray (Z.to_nat i).

(** [while (in.peek() == 0 && in.good()) in.get();] with [n] bounding the
    number of bytes it may extract. *)
Fixpoint skipPadding (n : nat) (s : ifstream) : option ifstream :=
  let '(c, s1) := peek s in
  if (c =? 0) && good s1 then
    match n with
    | O => None
    | S n' => skipPadding n' (snd (get s1))
    end
  else Some s1.

Inductive Step : Type :=
| Continue (st : Decoder)
| Halt (how : Outcome) (out : list Output).

(** The body of the loop after the test of the print limit. *)
Definition loopBody (st : Decoder) : Step :=
  let '(nextType, in1) := peekEntryType (in_ st) in
  match nextType with
  | LOG_MSG =>
      let '(dm, in2) := decompressMetadata in1 (lastFmtId st) (lastTimestamp st) in
      let out1 := printed st ++
        [MsgPrefix (linesPrinted st)
           (1.0e9 * toSeconds (sub64 (timestamp dm) (lastTimestamp st)))%float] in
      match tableEntry (fmtId dm) with
      | None => Halt (Undefined (TableIndexOutOfRange (fmtId dm))) out1
      | Some decompressAndPrint =>
          let '(text, in3) := decompressAndPrint in2 in
          let out2 := out1 ++ [MsgText text] in
          if linesPrinted st =? INT_MAX then Halt (Undefined SignedOverflow) out2
          else Continue {| in_ := in3;
                           linesPrinted := linesPrinted st + 1;
                           lastFmtId := fmtId dm;
                           lastTimestamp := timestamp dm;
                           printed := out2 |}
      end
  | CHECKPOINT =>
      let '(cp, in2) := readCheckpoint in1 in
      Continue {| in_ := in2;
                  linesPrinted := linesPrinted st;
                  lastFmtId := lastFmtId st;
                  lastTimestamp := lastTimestamp st;
                  printed := printed st ++ [FoundCheckpoint (cyclesPerSecond cp)] |}
  | INVALID =>
      match skipPadding (List.length (rdbuf in1)) in1 with
      | Some in2 =>
          Continue {| in_ := in2;
                      linesPrinted := linesPrinted st;
                      lastFmtId := lastFmtId st;
                      lastTimestamp := lastTimestamp st;
                      printed := printed st |}
      | None => Halt OutOfFuel (printed st)
      end
  | UNRECOGNIZED value =>
      Halt (Exit (-1)) (printed st ++ [NoSuchEntryType value])
  end.

(** [if (msgsToPrint > 0 && linesPrinted >= msgsToPrint) break;] *)
Definition limitReached (msgsToPrint : Z) (st : Decoder) : bool :=
  (msgsToPrint >? 0) && (linesPrinted st >=? msgsToPrint).

Inductive LoopResult : Type :=
| LoopDone (st : Decoder)
| LoopHalt (how : Outcome) (out : list Output).

(** [while (!in.eof()) { ... }], at most [fuel] iterations. *)
Fixpoint decodeLoop (fuel : nat) (msgsToPrint : Z) (st : Decoder) : LoopResult :=
  match fuel with
  | O => LoopHalt OutOfFuel (printed st)
  | S fuel' =>
      if eof (in_ st) then LoopDone st
      else if limitReached msgsToPrint st then LoopDone st
      else match loopBody st with
           | Continue st' => decodeLoop fuel' msgsToPrint st'
           | Halt how out => LoopHalt how out
           end
  end.

(** The state on entry to the loop. *)
Definition initialDecoder (s : ifstream) (out : list Output) : Decoder :=
  {| in_ := s; linesPrinted := 0; lastFmtId := 0; lastTimestamp := 0; printed := out |}.

(** [msgsToPrint] after the handling of [argv[2]], or the way the program
    ends there.  [rest] is [argv] from index 2 on. *)
Definition parseCount (rest : list string) : Result + Z :=
  match rest with
  | [] => inr 0
  | arg :: _ =>
      match stoi arg with
      | StoiInvalidArgument => inl (Exit (-1), [InvalidCount arg])
      | StoiOutOfRange => inl (Exit (-1), [CountTooLarge arg])
      | StoiValue msgsToPrint =>
          if msgsToPrint <? 0 then inl (Exit (-1), [CountNotPositive arg])
          else inr msgsToPrint
      end
  end.

Definition main (fuel : nat) (env : Env) (argv : list string) : Result :=
  match argv with
  | program :: file :: rest =>
      if callocOk env then
        match parseCount rest with
        | inl ended => ended
        | inr msgsToPrint =>
            match fileContent env file with
            | None => (Exit (-1), [UnableToOpen file])
            | Some bytes =>
                match decodeLoop fuel msgsToPrint
                        (initialDecoder (openStream bytes) [OpeningFile file]) with
                | LoopDone st => (Return 0, printed st ++ [Complete (linesPrinted st)])
                | LoopHalt how out => (how, out)
                end
            end
        end
      else (Exit (-1), [MallocFailed bufferSize])
  | _ => (Exit 1, [Usage (hd_error argv)])
  end.

End Decompressor.

(* ================================================================== *)
(** * Reading the output *)

(** The indices printed in front of the log messages, in order. *)
Fixpoint msgIndices (out : list Output) : list Z :=
  match out with
  | [] => []
  | MsgPrefix index _ :: rest => index :: msgIndices rest
  | _ :: rest => msgIndices rest
  end.

(** The number of decoded message texts in the output. *)
Fixpoint messageLines (out : list Output) : nat :=
  match out with
  | [] => O
  | MsgText _ :: rest => S (messageLines rest)
  | _ :: rest => messageLines rest
  end.

(** The count announced by the closing line, when that line was printed. *)
Fixpoint reportedCount (out : list Output) : option Z :=
  match out with
  | [] => None
  | Complete n :: _ => Some n
  | _ :: rest => reportedCount rest
  end.

(** Output that comes from decoding the log, as opposed to a complaint
    about the command line. *)
Definition isDecodedOutput (o : Output) : bool :=
  match o with
  | MsgPrefix _ _ | MsgText _ | FoundCheckpoint _ | Complete _ => true
  | _ => false
  end.

(** The exit status of a run that ended. *)
Definition statusOf (how : Outcome) : option Z :=
  match how with
  | Return code | Exit code => Some (exitStatus code)
  | _ => None
  end.

(** So far [n] messages were printed, with the indices [0] to [n - 1], and
    [linesPrinted] is [n]. *)
Definition numbered (n : nat) (count : Z) (out : list Output) : Prop :=
  count = Z.of_nat n /\ msgIndices out = map Z.of_nat (seq 0 n).

(** A run that ended through [exit] with a status other than zero. *)
Definition isFatalExit (how : Outcome) : bool :=
  match how with
  | Exit code => negb (exitStatus code =? 0)
  | _ => false
  end.

(* ================================================================== *)
(** * Streams of entries

    What a stream holds is told by the helpers themselves: a stream holds a
    list of entries when, entry after entry, [peekEntryType] announces the
    entry and the helper for that type reads it. *)

Section Streams.

Context {headers : Headers}.

(** The text printed in front of a log message. *)
Definition prefixLine (st : Decoder) (dm : DecompressedMetadata) : Output :=
  MsgPrefix (linesPrinted st)
    (1.0e9 * toSeconds (sub64 (timestamp dm) (lastTimestamp st)))%float.

Inductive Entry : Type :=
| LogEntry (dm : DecompressedMetadata) (text : string)
| CheckpointEntry (cp : Checkpoint)
| PaddingEntry.   (* zero bytes between records, or the end of the data *)

(** [Holds s f t entries s']: read from [s] with [f] and [t] the format id
    and timestamp of the previous log message, the stream holds [entries]
    and is left as [s']. *)
Inductive Holds : ifstream -> Z -> Z -> list Entry -> ifstream -> Prop :=
| HoldsNothing (s : ifstream) (f t : Z) :
    Holds s f t [] s
| HoldsLogMessage (s s1 s2 s' : ifstream) (f t : Z) (dm : DecompressedMetadata)
    (decompressAndPrint : ifstream -> string * ifstream) (entries : list Entry) :
    eof s = false ->
    peekEntryType s = (LOG_MSG, s1) ->
    decompressMetadata s1 f t = (dm, s2) ->
    tableEntry (fmtId dm) = Some decompressAndPrint ->
    Holds (snd (decompressAndPrint s2)) (fmtId dm) (timestamp dm) entries s' ->
    Holds s f t (LogEntry dm (fst (decompressAndPrint s2)) :: entries) s'
| HoldsCheckpoint (s s1 s2 s' : ifstream) (f t : Z) (cp : Checkpoint)
    (entries : list Entry) :
    eof s = false ->
    peekEntryType s = (CHECKPOINT, s1) ->
    readCheckpoint s1 = (cp, s2) ->
    Holds s2 f t entries s' ->
    Holds s f t (CheckpointEntry cp :: entries) s'
| HoldsPadding (s s1 s2 s' : ifstream) (f t : Z) (entries : list Entry) :
    eof s = false ->
    peekEntryType s = (INVALID, s1) ->
    skipPadding (List.length (rdbuf s1)) s1 = Some s2 ->
    Holds s2 f t entries s' ->
    Holds s f t (PaddingEntry :: entries) s'.

Fixpoint countMessages (entries : list Entry) : Z :=
  match entries with
  | [] => 0
  | LogEntry _ _ :: rest => 1 + countMessages rest
  | _ :: rest => countMessages rest
  end.

(** The format id and the timestamp of the last log message of [entries],
    or [f] and [t] when it has none. *)
Fixpoint fmtIdAfter (f : Z) (entries : list Entry) : Z :=
  match entries with
  | [] => f
  | LogEntry dm _ :: rest => fmtIdAfter (fmtId dm) rest
  | _ :: rest => fmtIdAfter f rest
  end.

Fixpoint timestampAfter (t : Z) (entries : list Entry) : Z :=
  match entries with
  | [] => t
  | LogEntry dm _ :: rest => timestampAfter (timestamp dm) rest
  | _ :: rest => timestampAfter t rest
  end.

(** The lines expected for [entries] when [n] messages were printed before
    them and the previous message carried the timestamp [t]. *)
Fixpoint render (n t : Z) (entries : list Entry) : list Output :=
  match entries with
  | [] => []
  | LogEntry dm text :: rest =>
      MsgPrefix n (1.0e9 * toSeconds (sub64 (timestamp dm) t))%float
      :: MsgText text :: render (n + 1) (timestamp dm) rest
  | CheckpointEntry cp :: rest =>
      FoundCheckpoint (cyclesPerSecond cp) :: render n t rest
  | PaddingEntry :: rest => render n t rest
  end.

End Streams.

(** The same headers, except that every checkpoint read announces the
    frequency [g c] where it used to announce [c]. *)
Definition recalibrated (g : float -> float) (h : Headers) : Headers :=
  {| peekEntryType := @peekEntryType h;
     decompressMetadata := @decompressMetadata h;
     readCheckpoint := fun s =>
       let '(cp, s') := @readCheckpoint h s in
       ({| cyclesPerSecond := g (cyclesPerSecond cp) |}, s');
     decompressAndPrintFnArray := @decompressAndPrintFnArray h;
     toSeconds := @toSeconds h |}.

(** The log lines of the output: the prefixes and the texts of the
    messages. *)
Definition isLogLine (o : Output) : bool :=
  match o with
  | MsgPrefix _ _ | MsgText _ => true
  | _ => false
  end.

Definition recalibrate (g : float -> float) (o : Output) : Output :=
  match o with
  | FoundCheckpoint c => FoundCheckpoint (g c)
  | _ => o
  end.

(* ================================================================== *)
(** * Numerals on the command line *)

Fixpoint allDigits (s : string) : bool :=
  match s with
  | String c r => isdigit c && allDigits r
  | EmptyString => true
  end.

(** An argument [strtol] reads to its end: white space, an optional sign,
    then digits and nothing else. *)
Definition isNumeral (s : string) : bool :=
  startsWithDigit (numericPart s) && allDigits (numericPart s).

(* ================================================================== *)
(** * A sample log format *)

Module Sample.

Import Strings.Byte.

(** [n] bytes, least significant first, as an unsigned number.  A byte
    that is missing reads as [EOF] and leaves the stream failed. *)
Fixpoint readBytes (n : nat) (s : ifstream) : Z * ifstream :=
  match n with
  | O => (0, s)
  | S n' =>
      let '(b, s1) := get s in
      let '(high, s2) := readBytes n' s1 in
      (b + 256 * high, s2)
  end.

(** Modelled from the spec: the Variable-Length Integer Codec is in
    [BufferUtils.h], which is not part of the source at hand.  A width
    indicator, then that many bytes.  The byte order and the place of the
    sign are left to the implementer; here the low four bits of the
    indicator count the bytes, bit 4 is the sign, and the bytes come least
    significant first. *)
Definition readVarint (s : ifstream) : Z * ifstream :=
  let '(w, s1) := get s in
  let '(magnitude, s2) := readBytes (Z.to_nat (Z.land w 15)) s1 in
  (if Z.testbit w 4 then - magnitude else magnitude, s2).

(** Modelled from the spec: [BufferUtils::peekEntryType] is in
    [BufferUtils.h], which is not part of the source at hand.  The tag is
    read from the next byte without consuming it; here it is the low two
    bits of that byte, with 0 for [INVALID] so that a padding byte has no
    valid tag, and the end of the data has no valid tag either. *)
Definition peekEntryType (s : ifstream) : EntryType * ifstream :=
  let '(c, s1) := peek s in
  if c =? EOF then (INVALID, s1)
  else match Z.land c 3 with
       | 0 => (INVALID, s1)
       | 1 => (LOG_MSG, s1)
       | 2 => (CHECKPOINT, s1)
       | v => (UNRECOGNIZED v, s1)
       end.

(** Modelled from the spec: [BufferUtils::decompressMetadata] is in
    [BufferUtils.h], which is not part of the source at hand.  After the
    tag byte come the delta of the format id and the delta of the
    timestamp, each added to the value of the previous record. *)
Definition decompressMetadata (s : ifstream) (lastFmtId lastTimestamp : Z)
  : DecompressedMetadata * ifstream :=
  let '(_, s1) := get s in
  let '(fmtDelta, s2) := readVarint s1 in
  let '(timeDelta, s3) := readVarint s2 in
  ({| fmtId := (lastFmtId + fmtDelta) mod 2 ^ 32;
      timestamp := (lastTimestamp + timeDelta) mod UINT64_MOD |}, s3).

(** The [double] nearest to the integer [z], ties to even, as the
    conversion of an integer to [double] gives it. *)
Definition floatOfZ (z : Z) : float :=
  FloatOps.SF2Prim
    (SpecFloat.binary_normalize FloatOps.prec FloatOps.emax z 0 false).

(** Modelled from the spec: [BufferUtils::readCheckpoint] is in
    [BufferUtils.h], which is not part of the source at hand.  A record of
    fixed shape holding the clock calibration; here the tag byte and the
    frequency as a whole number of cycles in four bytes. *)
Definition readCheckpoint (s : ifstream) : Checkpoint * ifstream :=
  let '(_, s1) := get s in
  let '(hz, s2) := readBytes 4 s1 in
  ({| cyclesPerSecond := floatOfZ hz |}, s2).

(** Modelled from the spec: [PerfUtils::Cycles::toSeconds] is in
    [Cycles.h], which is not part of the source at hand.  Called with the
    cycle count alone it converts with the frequency of the machine that
    runs the decompressor, here 2 GHz. *)
Definition toSeconds (cycles : Z) : float := (floatOfZ cycles / 2.0e9)%float.

(** Modelled from the spec: [decompressAndPrintFnArray] is generated into
    [BufferStuffer.h], which is not part of the source at hand.  One entry
    per log statement, each reading exactly the arguments of its
    statement: entry 0 has none, entry 1 has one character. *)
Definition printHello (s : ifstream) : string * ifstream := ("Hello", s).

Definition printLetter (s : ifstream) : string * ifstream :=
  let '(c, s1) := get s in
  (String (ascii_of_nat (Z.to_nat c)) EmptyString, s1).

#[global] Instance headers : Headers :=
  Build_Headers peekEntryType decompressMetadata readCheckpoint
    [printHello; printLetter] toSeconds.

(** Some records in this format. *)

(** The first statement, 100 cycles after the previous message. *)
Definition helloRecord : list byte := [x01; x00; x01; x64].
(** A log message whose format id is 7 above the previous one. *)
Definition strayRecord : list byte := [x01; x01; x07; x01; x64].
(** A checkpoint announcing 1 GHz (1000000000 = 0x3B9ACA00). *)
Definition checkpointRecord : list byte := [x02; x00; xca; x9a; x3b].

(** The second statement with the letter A, 100 cycles after the previous
    message; its format id is 1 above the previous one. *)
Definition letterRecord : list byte := [x01; x01; x01; x01; x64; x41].

Fixpoint repeatRecord (n : nat) (r : list byte) : list byte :=
  match n with
  | O => []
  | S n' => r ++ repeatRecord n' r
  end.

(** A machine on which [calloc] succeeds and the one file ["log"] holds
    [bytes]. *)
Definition withLog (bytes : list byte) : Env :=
  {| callocOk := true;
     fileContent := fun name => if String.eqb name "log" then Some bytes else None |}.

(** The k-th of a run of [helloRecord]s, as an entry. *)
Definition helloEntry (k : Z) : Entry :=
  LogEntry {| fmtId := 0; timestamp := 100 * k |} "Hello".

Definition tenHellos : list byte := repeatRecord 10 helloRecord.

(** A checkpoint, a message, two bytes of padding, a message. *)
Definition mixedLog : list byte :=
  checkpointRecord ++ helloRecord ++ [x00; x00] ++ helloRecord.

Definition mixedEntries : list Entry :=
  [CheckpointEntry {| cyclesPerSecond := 1.0e9 |}; helloEntry 1; PaddingEntry;
   helloEntry 2; PaddingEntry].

(** The stream left when the data was read to its end and one more read was
    tried. *)
Definition exhausted : ifstream := {| rdbuf := []; eofbit := true; failbit := true |}.

End Sample.

(* ================================================================== *)
(** * Further notions *)

From Stdlib Require DecimalString DecimalZ DecimalPos.

(** The decimal numeral of [z] as it is typed on a command line: its
    digits, behind a minus sign when [z] is negative. *)
Definition decimal (z : Z) : string :=
  DecimalString.NilZero.string_of_int (Z.to_int z).

(** [buf] without the zero bytes at its front. *)
Fixpoint dropZeros (buf : list Byte.byte) : list Byte.byte :=
  match buf with
  | b :: rest => if byteValue b =? 0 then dropZeros rest else buf
  | [] => []
  end.

(** The stream behind the padding: on a good stream the zero bytes at the
    front are gone, and [eofbit] is up when nothing came after them; a
    stream that was not good has [failbit] up and its bytes untouched. *)
Definition afterPadding (s : ifstream) : ifstream :=
  if good s then
    {| rdbuf := dropZeros (rdbuf s);
       eofbit := match dropZeros (rdbuf s) with [] => true | _ :: _ => false end;
       failbit := false |}
  else setFail s.

(** What a run of the loop has printed when it stops. *)
Definition outputOf (r : LoopResult) : list Output :=
  match r with
  | LoopDone st => printed st
  | LoopHalt _ out => out
  end.

(** The message lines agree with the counter: as many texts as prefixes,
    and [linesPrinted] is their number. *)
Definition counted (st : Decoder) : Prop :=
  linesPrinted st = Z.of_nat (messageLines (printed st)) /\
  List.length (msgIndices (printed st)) = messageLines (printed st).

(** What [main] makes of the way the loop stopped: after the loop it prints
    the closing line and returns 0; a stop inside the loop is the end of the
    program. *)
Definition finish (r : LoopResult) : Result :=
  match r with
  | LoopDone st => (Return 0, printed st ++ [Complete (linesPrinted st)])
  | LoopHalt how out => (how, out)
  end.

(** A complaint about the command line or the machine, printed before any
    decoding. *)
Definition isComplaint (o : Output) : bool :=
  match o with
  | Usage _ | MallocFailed _ | InvalidCount _ | CountTooLarge _
  | CountNotPositive _ | UnableToOpen _ => true
  | _ => false
  end.

(** White space and nothing else. *)
Fixpoint allSpaces (s : string) : bool :=
  match s with
  | String c r => isspace c && allSpaces r
  | EmptyString => true
  end.

(** [s] begins like a number: white space or none, a sign or none, then a
    digit. *)
Definition startsNumber (s : string) : Prop :=
  exists ws sign d rest,
    s = (ws ++ sign ++ String d rest)%string /\
    allSpaces ws = true /\
    (sign = "" \/ sign = "+" \/ sign = "-") /\
    isdigit d = true.

(** Every message text stands right behind a prefix, and every prefix
    right in front of a text. *)
Fixpoint paired (out : list Output) : bool :=
  match out with
  | [] => true
  | MsgPrefix _ _ :: rest =>
      match rest with
      | MsgText _ :: rest' => paired rest'
      | _ => false
      end
  | MsgText _ :: _ => false
  | _ :: rest => paired rest
  end.

(** A log in the sample format: the letter A under format id 1, a
    checkpoint, then the letter B in a record that gives no new format id,
    only a delta of zero. *)
Definition stateLog : list Byte.byte :=
  Sample.letterRecord ++ Sample.checkpointRecord
    ++ [Byte.x01; Byte.x00; Byte.x01; Byte.x64; Byte.x42].


Lemma msgIndices_app (a b : list Output) :
  msgIndices (a ++ b) = msgIndices a ++ msgIndices b.
Proof.
  induction a as [|o a IH]; simpl; [reflexivity|].
  destruct o; simpl; rewrite IH; reflexivity.
Qed.

Lemma messageLines_app (a b : list Output) :
  messageLines (a ++ b) = (messageLines a + messageLines b)%nat.
Proof.
  induction a as [|o a IH]; simpl; [reflexivity|].
  destruct o; simpl; rewrite IH; reflexivity.
Qed.

Lemma reportedCount_app (a b : list Output) :
  reportedCount (a ++ b) =
  match reportedCount a with Some n => Some n | None => reportedCount b end.
Proof.
  induction a as [|o a IH]; simpl; [reflexivity|].
  destruct o; simpl; auto.
Qed.

(* ================================================================== *)
(** * One iteration of the decode loop *)

Section Iteration.

Context {headers : Headers}.

(** The four ways an iteration can go, one equation each. *)

Lemma loopBody_checkpoint (st : Decoder) (in1 in2 : ifstream) (cp : Checkpoint) :
  peekEntryType (in_ st) = (CHECKPOINT, in1) ->
  readCheckpoint in1 = (cp, in2) ->
  loopBody st =
  Continue {| in_ := in2;
              linesPrinted := linesPrinted st;
              lastFmtId := lastFmtId st;
              lastTimestamp := lastTimestamp st;
              printed := printed st ++ [FoundCheckpoint (cyclesPerSecond cp)] |}.
Proof.
  intros Hpeek Hread. unfold loopBody. rewrite Hpeek, Hread. reflexivity.
Qed.

Lemma loopBody_unrecognized (st : Decoder) (in1 : ifstream) (value : Z) :
  peekEntryType (in_ st) = (UNRECOGNIZED value, in1) ->
  loopBody st = Halt (Exit (-1)) (printed st ++ [NoSuchEntryType value]).
Proof.
  intros Hpeek. unfold loopBody. rewrite Hpeek. reflexivity.
Qed.

Lemma loopBody_invalid (st : Decoder) (in1 in2 : ifstream) :
  peekEntryType (in_ st) = (INVALID, in1) ->
  skipPadding (List.length (rdbuf in1)) in1 = Some in2 ->
  loopBody st =
  Continue {| in_ := in2;
              linesPrinted := linesPrinted st;
              lastFmtId := lastFmtId st;
              lastTimestamp := lastTimestamp st;
              printed := printed st |}.
Proof.
  intros Hpeek Hskip. unfold loopBody. rewrite Hpeek, Hskip. reflexivity.
Qed.

Lemma loopBody_log_msg (st : Decoder) (in1 in2 : ifstream) (dm : DecompressedMetadata) :
  peekEntryType (in_ st) = (LOG_MSG, in1) ->
  decompressMetadata in1 (lastFmtId st) (lastTimestamp st) = (dm, in2) ->
  loopBody st =
  match tableEntry (fmtId dm) with
  | None => Halt (Undefined (TableIndexOutOfRange (fmtId dm)))
              (printed st ++ [prefixLine st dm])
  | Some decompressAndPrint =>
      if linesPrinted st =? INT_MAX
      then Halt (Undefined SignedOverflow)
             ((printed st ++ [prefixLine st dm]) ++ [MsgText (fst (decompressAndPrint in2))])
      else Continue {| in_ := snd (decompressAndPrint in2);
                       linesPrinted := linesPrinted st + 1;
                       lastFmtId := fmtId dm;
                       lastTimestamp := timestamp dm;
                       printed := (printed st ++ [prefixLine st dm])
                                  ++ [MsgText (fst (decompressAndPrint in2))] |}
  end.
Proof.
  intros Hpeek Hmeta. unfold loopBody. rewrite Hpeek, Hmeta.
  destruct (tableEntry (fmtId dm)) as [fn|]; [|reflexivity].
  destruct (fn in2) as [text in3]. reflexivity.
Qed.

(** The padding loop ends by its own test: the bound on its iterations is
    never what stops it. *)
Lemma skipPadding_total (s : ifstream) :
  exists s', skipPadding (List.length (rdbuf s)) s = Some s'.
Proof.
  destruct s as [buf e f]. revert e f.
  induction buf as [|b buf IH]; intros e f.
  - simpl. unfold peek, good. simpl.
    destruct e, f; simpl; eexists; reflexivity.
  - simpl. unfold peek, good. simpl.
    destruct e, f; simpl; try (eexists; reflexivity).
    destruct (byteValue b =? 0); simpl; [|eexists; reflexivity].
    apply IH.
Qed.

(** A byte that is not zero stops the padding loop at once, and nothing is
    extracted. *)
Lemma skipPadding_nonzero (n : nat) (b : Byte.byte) (rest : list Byte.byte) :
  byteValue b <> 0 ->
  skipPadding n (openStream (b :: rest)) = Some (openStream (b :: rest)).
Proof.
  intros Hb. destruct n; simpl; unfold peek, good; simpl;
    apply Z.eqb_neq in Hb; rewrite Hb; reflexivity.
Qed.

Lemma tableEntry_in_range (i : Z) :
  0 <= i < Z.of_nat (List.length decompressAndPrintFnArray) ->
  exists fn, tableEntry i = Some fn.
Proof.
  intros Hi. unfold tableEntry.
  destruct (i <? 0) eqn:Hneg; [apply Z.ltb_lt in Hneg; lia|].
  destruct (nth_error decompressAndPrintFnArray (Z.to_nat i)) as [fn|] eqn:Hnth.
  - exists fn. reflexivity.
  - apply nth_error_None in Hnth. lia.
Qed.

Lemma tableEntry_out_of_range (i : Z) :
  i < 0 \/ Z.of_nat (List.length decompressAndPrintFnArray) <= i ->
  tableEntry i = None.
Proof.
  intros Hi. unfold tableEntry.
  destruct (i <? 0) eqn:Hneg; [reflexivity|].
  apply Z.ltb_ge in Hneg. apply nth_error_None. lia.
Qed.

(** One iteration and the running state: an iteration that decodes a log
    message to its end leaves it at the format id and timestamp just
    decoded (and counts one more line); an iteration that reads a
    checkpoint, or skips padding, leaves the running state and the count of
    printed lines as they were. *)
Lemma loopBody_running_state :
  (forall s out,
     lastFmtId (initialDecoder s out) = 0 /\ lastTimestamp (initialDecoder s out) = 0) /\
  (forall st in1 in2 dm st',
     peekEntryType (in_ st) = (LOG_MSG, in1) ->
     decompressMetadata in1 (lastFmtId st) (lastTimestamp st) = (dm, in2) ->
     loopBody st = Continue st' ->
     lastFmtId st' = fmtId dm /\ lastTimestamp st' = timestamp dm /\
     linesPrinted st' = linesPrinted st + 1) /\
  (forall st in1,
     peekEntryType (in_ st) = (CHECKPOINT, in1) ->
     exists st', loopBody st = Continue st' /\
       lastFmtId st' = lastFmtId st /\ lastTimestamp st' = lastTimestamp st /\
       linesPrinted st' = linesPrinted st) /\
  (forall st in1,
     peekEntryType (in_ st) = (INVALID, in1) ->
     exists st', loopBody st = Continue st' /\
       lastFmtId st' = lastFmtId st /\ lastTimestamp st' = lastTimestamp st /\
       linesPrinted st' = linesPrinted st).
Proof.
  split; [|split; [|split]].
  - intros s out. split; reflexivity.
  - intros st in1 in2 dm st' Hpeek Hmeta Hbody.
    rewrite (loopBody_log_msg st in1 in2 dm Hpeek Hmeta) in Hbody.
    destruct (tableEntry (fmtId dm)) as [fn|]; [|discriminate].
    destruct (linesPrinted st =? INT_MAX); [discriminate|].
    injection Hbody as <-. simpl. auto.
  - intros st in1 Hpeek.
    destruct (readCheckpoint in1) as [cp in2] eqn:Hread.
    eexists. split; [apply (loopBody_checkpoint st in1 in2 cp Hpeek Hread)|].
    simpl. auto.
  - intros st in1 Hpeek.
    destruct (skipPadding_total in1) as [in2 Hskip].
    eexists. split; [apply (loopBody_invalid st in1 in2 Hpeek Hskip)|].
    simpl. auto.
Qed.

(** C3, as the code has it.  The table is indexed with the decoded format
    id and nothing tests the id first.  When the id has an entry, that entry
    is called on the stream left by the metadata helper and its text is
    printed after the prefix; when it has none, the array is indexed out of
    bounds, which is undefined, and no error is raised. *)
Theorem table_lookup_unchecked (st : Decoder) (in1 in2 : ifstream)
    (dm : DecompressedMetadata) :
  peekEntryType (in_ st) = (LOG_MSG, in1) ->
  decompressMetadata in1 (lastFmtId st) (lastTimestamp st) = (dm, in2) ->
  (0 <= fmtId dm < Z.of_nat (List.length decompressAndPrintFnArray) ->
   linesPrinted st <> INT_MAX ->
   exists decompressAndPrint,
     nth_error decompressAndPrintFnArray (Z.to_nat (fmtId dm)) = Some decompressAndPrint /\
     loopBody st =
     Continue {| in_ := snd (decompressAndPrint in2);
                 linesPrinted := linesPrinted st + 1;
                 lastFmtId := fmtId dm;
                 lastTimestamp := timestamp dm;
                 printed := (printed st ++ [prefixLine st dm])
                            ++ [MsgText (fst (decompressAndPrint in2))] |}) /\
  (fmtId dm < 0 \/ Z.of_nat (List.length decompressAndPrintFnArray) <= fmtId dm ->
   loopBody st = Halt (Undefined (TableIndexOutOfRange (fmtId dm)))
                   (printed st ++ [prefixLine st dm])).
Proof.
  intros Hpeek Hmeta.
  rewrite (loopBody_log_msg st in1 in2 dm Hpeek Hmeta). split.
  - intros Hrange Hmax.
    destruct (tableEntry_in_range (fmtId dm) Hrange) as [fn Hfn].
    exists fn. rewrite Hfn. split.
    + unfold tableEntry in Hfn.
      destruct (fmtId dm <? 0); [discriminate|exact Hfn].
    + apply Z.eqb_neq in Hmax. rewrite Hmax. reflexivity.
  - intros Hout. rewrite (tableEntry_out_of_range (fmtId dm) Hout). reflexivity.
Qed.

End Iteration.

(* ================================================================== *)
(** * The decode loop *)

Section Loop.

Context {headers : Headers}.

Lemma decodeLoop_continue (fuel : nat) (msgsToPrint : Z) (st st' : Decoder) :
  eof (in_ st) = false ->
  limitReached msgsToPrint st = false ->
  loopBody st = Continue st' ->
  decodeLoop (S fuel) msgsToPrint st = decodeLoop fuel msgsToPrint st'.
Proof.
  intros Heof Hlimit Hbody. simpl. rewrite Heof, Hlimit, Hbody. reflexivity.
Qed.

Lemma decodeLoop_halt (fuel : nat) (msgsToPrint : Z) (st : Decoder)
    (how : Outcome) (out : list Output) :
  eof (in_ st) = false ->
  limitReached msgsToPrint st = false ->
  loopBody st = Halt how out ->
  decodeLoop (S fuel) msgsToPrint st = LoopHalt how out.
Proof.
  intros Heof Hlimit Hbody. simpl. rewrite Heof, Hlimit, Hbody. reflexivity.
Qed.

(** Takes [loopBody] apart along the branches of the source. *)
Ltac branches_of_loopBody :=
  let nextType := fresh "nextType" in
  let in1 := fresh "in1" in
  let in2 := fresh "in2" in
  let in3 := fresh "in3" in
  let dm := fresh "dm" in
  let fn := fresh "fn" in
  let text := fresh "text" in
  let cp := fresh "cp" in
  let value := fresh "value" in
  unfold loopBody;
  destruct (peekEntryType (in_ _)) as [nextType in1];
  destruct nextType as [| | |value];
  [ destruct (skipPadding _ in1) as [in2|]
  | destruct (decompressMetadata in1 _ _) as [dm in2];
    destruct (tableEntry (fmtId dm)) as [fn|];
    [ destruct (fn in2) as [text in3]; destruct (linesPrinted _ =? INT_MAX) | ]
  | destruct (readCheckpoint in1) as [cp in2]
  | ].

(** C2, which fails on the code.  The claim is that the loop ends on every
    input.  It does not: when the entry type peeked is [INVALID] and the
    next byte is not zero, the padding loop extracts nothing, the iteration
    changes nothing, and the same iteration runs again, so that no number of
    iterations ends the loop. *)
Theorem nonzero_invalid_byte_never_ends (msgsToPrint : Z) (st : Decoder)
    (b : Byte.byte) (rest : list Byte.byte) :
  in_ st = openStream (b :: rest) ->
  byteValue b <> 0 ->
  peekEntryType (in_ st) = (INVALID, in_ st) ->
  limitReached msgsToPrint st = false ->
  forall fuel, decodeLoop fuel msgsToPrint st = LoopHalt OutOfFuel (printed st).
Proof.
  intros Hin Hb Hpeek Hlimit.
  assert (Hbody : loopBody st = Continue st).
  { rewrite (loopBody_invalid st (in_ st) (in_ st) Hpeek).
    - destruct st; reflexivity.
    - rewrite Hin. apply skipPadding_nonzero, Hb. }
  induction fuel as [|fuel IH]; [reflexivity|].
  rewrite (decodeLoop_continue fuel msgsToPrint st st); auto.
  rewrite Hin. reflexivity.
Qed.

(** The closing line is printed by nothing inside the loop. *)
Lemma loopBody_reports_nothing (st : Decoder) :
  reportedCount (printed st) = None ->
  match loopBody st with
  | Continue st' => reportedCount (printed st') = None
  | Halt _ out => reportedCount out = None
  end.
Proof.
  intros Hnone. branches_of_loopBody; simpl;
    repeat rewrite reportedCount_app; rewrite ?Hnone; reflexivity.
Qed.

Lemma decodeLoop_reports_nothing (fuel : nat) (msgsToPrint : Z) (st : Decoder) :
  reportedCount (printed st) = None ->
  match decodeLoop fuel msgsToPrint st with
  | LoopDone st' => reportedCount (printed st') = None
  | LoopHalt _ out => reportedCount out = None
  end.
Proof.
  revert st. induction fuel as [|fuel IH]; intros st Hnone; simpl; [exact Hnone|].
  destruct (eof (in_ st)); [exact Hnone|].
  destruct (limitReached msgsToPrint st); [exact Hnone|].
  pose proof (loopBody_reports_nothing st Hnone) as Hbody.
  destruct (loopBody st) as [st'|how out]; [apply IH|]; exact Hbody.
Qed.

(** C6, as the code has it.  When the entry type peeked is none of
    [LOG_MSG], [CHECKPOINT] and [INVALID], the iteration prints the value
    of the tag and the program leaves through [exit(-1)], status 255, at
    once.  The number of lines printed is not reported then: no run that
    leaves through [exit] prints the closing line with the count. *)
Theorem unrecognized_tag_exits :
  (forall fuel msgsToPrint st in1 value,
     eof (in_ st) = false ->
     limitReached msgsToPrint st = false ->
     peekEntryType (in_ st) = (UNRECOGNIZED value, in1) ->
     decodeLoop (S fuel) msgsToPrint st =
       LoopHalt (Exit (-1)) (printed st ++ [NoSuchEntryType value]) /\
     statusOf (Exit (-1)) = Some 255) /\
  (forall fuel env argv code,
     fst (main fuel env argv) = Exit code ->
     reportedCount (snd (main fuel env argv)) = None).
Proof.
  split.
  - intros fuel msgsToPrint st in1 value Heof Hlimit Hpeek. split; [|reflexivity].
    apply decodeLoop_halt; auto.
    apply (loopBody_unrecognized st in1 value Hpeek).
  - intros fuel env argv code. unfold main.
    destruct argv as [|program [|file rest]]; try reflexivity.
    destruct (callocOk env); [|reflexivity].
    unfold parseCount.
    destruct rest as [|arg rest].
    + destruct (fileContent env file) as [bytes|]; [|reflexivity].
      pose proof (decodeLoop_reports_nothing fuel 0
                    (initialDecoder (openStream bytes) [OpeningFile file]) eq_refl) as Hrun.
      destruct (decodeLoop _ _ _); simpl; [discriminate|intros _; exact Hrun].
    + destruct (stoi arg) as [v| |]; try reflexivity.
      destruct (v <? 0); [reflexivity|].
      destruct (fileContent env file) as [bytes|]; [|reflexivity].
      pose proof (decodeLoop_reports_nothing fuel v
                    (initialDecoder (openStream bytes) [OpeningFile file]) eq_refl) as Hrun.
      destruct (decodeLoop _ _ _); simpl; [discriminate|intros _; exact Hrun].
Qed.

(** ** The index printed with each message *)

(** The indices [0], [1], ..., [n - 1]. *)
Lemma nth_error_indices (n start j : nat) (index : Z) :
  nth_error (map Z.of_nat (seq start n)) j = Some index ->
  index = Z.of_nat (start + j).
Proof.
  revert start j. induction n as [|n IH]; intros start j Hnth.
  - destruct j; discriminate.
  - destruct j as [|j]; simpl in Hnth.
    + injection Hnth as <-. f_equal. lia.
    + apply IH in Hnth. subst index. f_equal. lia.
Qed.

Lemma numbered_next (n : nat) (count : Z) (out : list Output) (ns : float) :
  numbered n count out ->
  numbered (S n) (count + 1) (out ++ [MsgPrefix count ns]).
Proof.
  intros [Hcount Hout]. split; [lia|].
  rewrite msgIndices_app, Hout, seq_S, map_app. simpl. subst count. reflexivity.
Qed.

Lemma numbered_other (n : nat) (count : Z) (out : list Output) (o : Output) :
  msgIndices [o] = [] ->
  numbered n count out ->
  numbered n count (out ++ [o]).
Proof.
  intros Ho [Hcount Hout]. split; [exact Hcount|].
  rewrite msgIndices_app, Ho, app_nil_r. exact Hout.
Qed.

Lemma loopBody_numbered (st : Decoder) (n : nat) :
  numbered n (linesPrinted st) (printed st) ->
  match loopBody st with
  | Continue st' => exists n', numbered n' (linesPrinted st') (printed st')
  | Halt _ out => exists n' count, numbered n' count out
  end.
Proof.
  intros Hn. branches_of_loopBody; simpl.
  - exists n. exact Hn.
  - exists n, (linesPrinted st). exact Hn.
  - exists (S n), (linesPrinted st + 1).
    apply numbered_other; [reflexivity|]. apply numbered_next, Hn.
  - exists (S n). apply numbered_other; [reflexivity|]. apply numbered_next, Hn.
  - exists (S n), (linesPrinted st + 1). apply numbered_next, Hn.
  - exists n. apply numbered_other; [reflexivity|exact Hn].
  - exists n, (linesPrinted st). apply numbered_other; [reflexivity|exact Hn].
Qed.

Lemma decodeLoop_numbered (fuel : nat) (msgsToPrint : Z) (st : Decoder) (n : nat) :
  numbered n (linesPrinted st) (printed st) ->
  match decodeLoop fuel msgsToPrint st with
  | LoopDone st' => exists n', numbered n' (linesPrinted st') (printed st')
  | LoopHalt _ out => exists n' count, numbered n' count out
  end.
Proof.
  revert st n. induction fuel as [|fuel IH]; intros st n Hn; simpl.
  - exists n, (linesPrinted st). exact Hn.
  - destruct (eof (in_ st)); [exists n; exact Hn|].
    destruct (limitReached msgsToPrint st); [exists n; exact Hn|].
    pose proof (loopBody_numbered st n Hn) as Hbody.
    destruct (loopBody st) as [st'|how out]; [|exact Hbody].
    destruct Hbody as [n' Hn']. apply (IH st' n' Hn').
Qed.

Lemma main_numbered (fuel : nat) (env : Env) (argv : list string) :
  exists n, msgIndices (snd (main fuel env argv)) = map Z.of_nat (seq 0 n).
Proof.
  assert (Hnone : forall how o, msgIndices [o] = [] ->
            exists n, msgIndices (snd ((how, [o]) : Result)) = map Z.of_nat (seq 0 n)).
  { intros how o Ho. exists O. exact Ho. }
  assert (Hrun : forall msgsToPrint file bytes,
            exists n, msgIndices (snd
              match decodeLoop fuel msgsToPrint
                      (initialDecoder (openStream bytes) [OpeningFile file]) with
              | LoopDone st => (Return 0, printed st ++ [Complete (linesPrinted st)])
              | LoopHalt how out => (how, out)
              end) = map Z.of_nat (seq 0 n)).
  { intros msgsToPrint file bytes.
    pose proof (decodeLoop_numbered fuel msgsToPrint
                  (initialDecoder (openStream bytes) [OpeningFile file]) O
                  (conj eq_refl eq_refl)) as Hloop.
    destruct (decodeLoop _ _ _) as [st|how out].
    - destruct Hloop as [n [_ Hout]]. exists n. simpl.
      rewrite msgIndices_app, Hout. apply app_nil_r.
    - destruct Hloop as [n [count [_ Hout]]]. exists n. exact Hout. }
  unfold main.
  destruct argv as [|program [|file rest]]; try (apply Hnone; reflexivity).
  destruct (callocOk env); [|apply Hnone; reflexivity].
  unfold parseCount. destruct rest as [|arg rest].
  - destruct (fileContent env file); [apply Hrun|apply Hnone; reflexivity].
  - destruct (stoi arg) as [v| |]; try (apply Hnone; reflexivity).
    destruct (v <? 0); [apply Hnone; reflexivity|].
    destruct (fileContent env file); [apply Hrun|apply Hnone; reflexivity].
Qed.

(** C9.  The index printed with a message counts from zero: in the output
    of every run, the k-th message printed (k from 1) carries the index
    k - 1. *)
Theorem message_index_zero_based (fuel : nat) (env : Env) (argv : list string)
    (k : nat) (index : Z) :
  (1 <= k)%nat ->
  nth_error (msgIndices (snd (main fuel env argv))) (k - 1) = Some index ->
  index = Z.of_nat k - 1.
Proof.
  intros Hk Hnth.
  destruct (main_numbered fuel env argv) as [n Hn].
  rewrite Hn in Hnth. apply nth_error_indices in Hnth. lia.
Qed.

(** ** Streams that hold entries *)

Lemma countMessages_nonneg (entries : list Entry) : 0 <= countMessages entries.
Proof.
  induction entries as [|e entries IH]; cbn [countMessages]; [lia|].
  destruct e; lia.
Qed.

Lemma countMessages_app (a b : list Entry) :
  countMessages (a ++ b) = countMessages a + countMessages b.
Proof.
  induction a as [|e a IH]; cbn [countMessages app]; [reflexivity|].
  destruct e; lia.
Qed.

Lemma render_app (n t : Z) (a b : list Entry) :
  render n t (a ++ b) =
  render n t a ++ render (n + countMessages a) (timestampAfter t a) b.
Proof.
  revert n t. induction a as [|e a IH]; intros n t;
    cbn [render countMessages timestampAfter app].
  - rewrite Z.add_0_r. reflexivity.
  - destruct e as [dm text|cp|]; cbn [app]; rewrite IH; try reflexivity.
    replace (n + 1 + countMessages a) with (n + (1 + countMessages a)) by lia.
    reflexivity.
Qed.

Lemma messageLines_render (n t : Z) (entries : list Entry) :
  messageLines (render n t entries) = Z.to_nat (countMessages entries).
Proof.
  revert n t. induction entries as [|e entries IH]; intros n t;
    cbn [render countMessages messageLines]; [reflexivity|].
  destruct e as [dm text|cp|]; cbn [messageLines]; rewrite IH; try reflexivity.
  pose proof (countMessages_nonneg entries). lia.
Qed.

Lemma Holds_app_inv (a b : list Entry) (s s' : ifstream) (f t : Z) :
  Holds s f t (a ++ b) s' ->
  exists mid, Holds s f t a mid /\
              Holds mid (fmtIdAfter f a) (timestampAfter t a) b s'.
Proof.
  revert s f t. induction a as [|e a IH]; intros s f t Hall; simpl in *.
  - exists s. split; [constructor|exact Hall].
  - inversion Hall; subst;
      match goal with
      | Hrest : Holds _ _ _ (a ++ b) _ |- _ =>
          destruct (IH _ _ _ Hrest) as [mid [Ha Hb]]
      end;
      exists mid; (split; [econstructor; eassumption|exact Hb]).
Qed.

Lemma limit_not_reached (msgsToPrint : Z) (st : Decoder) :
  msgsToPrint <= 0 \/ linesPrinted st < msgsToPrint ->
  limitReached msgsToPrint st = false.
Proof.
  intros Hm. unfold limitReached. apply andb_false_iff.
  destruct Hm as [Hm|Hm]; [left; lia|right; lia].
Qed.

(** The loop reads the entries a stream holds one per iteration, as long
    as the print limit is not reached before the last of them and
    [linesPrinted] stays an [int]. *)
Lemma decodeLoop_holds (msgsToPrint : Z) (s s' : ifstream) (f t : Z)
    (entries : list Entry) :
  Holds s f t entries s' ->
  forall (n : Z) (out : list Output) (fuel : nat),
    msgsToPrint <= 0 \/ n + countMessages entries < msgsToPrint ->
    n + countMessages entries <= INT_MAX ->
    decodeLoop (List.length entries + fuel) msgsToPrint
      {| in_ := s; linesPrinted := n; lastFmtId := f; lastTimestamp := t;
         printed := out |} =
    decodeLoop fuel msgsToPrint
      {| in_ := s'; linesPrinted := n + countMessages entries;
         lastFmtId := fmtIdAfter f entries;
         lastTimestamp := timestampAfter t entries;
         printed := out ++ render n t entries |}.
Proof.
  induction 1 as [s f t
                 |s s1 s2 s' f t dm fn entries Heof Hpeek Hmeta Hfn _ IH
                 |s s1 s2 s' f t cp entries Heof Hpeek Hread _ IH
                 |s s1 s2 s' f t entries Heof Hpeek Hskip _ IH];
    intros n out fuel Hlimit Hmax; cbn [countMessages] in *.
  - cbn [List.length Nat.add fmtIdAfter timestampAfter render].
    rewrite Z.add_0_r, app_nil_r. reflexivity.
  - pose proof (countMessages_nonneg entries) as Hpos.
    change (List.length (LogEntry dm (fst (fn s2)) :: entries) + fuel)%nat
      with (S (List.length entries + fuel)).
    rewrite decodeLoop_continue with
      (st' := {| in_ := snd (fn s2); linesPrinted := n + 1; lastFmtId := fmtId dm;
                 lastTimestamp := timestamp dm;
                 printed := (out ++ [MsgPrefix n (1.0e9 * toSeconds (sub64 (timestamp dm) t))%float])
                            ++ [MsgText (fst (fn s2))] |}).
    + rewrite IH by lia. cbn [fmtIdAfter timestampAfter render].
      replace (n + 1 + countMessages entries) with (n + (1 + countMessages entries)) by lia.
      rewrite <- !app_assoc. reflexivity.
    + exact Heof.
    + apply limit_not_reached. simpl. lia.
    + rewrite (loopBody_log_msg
        {| in_ := s; linesPrinted := n; lastFmtId := f; lastTimestamp := t;
           printed := out |}
        s1 s2 dm Hpeek Hmeta). simpl. rewrite Hfn.
      replace (n =? INT_MAX) with false by (symmetry; apply Z.eqb_neq; lia).
      reflexivity.
  - pose proof (countMessages_nonneg entries) as Hpos.
    change (List.length (CheckpointEntry cp :: entries) + fuel)%nat
      with (S (List.length entries + fuel)).
    rewrite decodeLoop_continue with
      (st' := {| in_ := s2; linesPrinted := n; lastFmtId := f; lastTimestamp := t;
                 printed := out ++ [FoundCheckpoint (cyclesPerSecond cp)] |}).
    + rewrite IH by lia. cbn [fmtIdAfter timestampAfter render].
      rewrite <- app_assoc. reflexivity.
    + exact Heof.
    + apply limit_not_reached. simpl. lia.
    + apply (loopBody_checkpoint
        {| in_ := s; linesPrinted := n; lastFmtId := f; lastTimestamp := t;
           printed := out |}
        s1 s2 cp Hpeek Hread).
  - pose proof (countMessages_nonneg entries) as Hpos.
    change (List.length (PaddingEntry :: entries) + fuel)%nat
      with (S (List.length entries + fuel)).
    rewrite decodeLoop_continue with
      (st' := {| in_ := s2; linesPrinted := n; lastFmtId := f; lastTimestamp := t;
                 printed := out |}).
    + rewrite IH by lia. reflexivity.
    + exact Heof.
    + apply limit_not_reached. simpl. lia.
    + apply (loopBody_invalid
        {| in_ := s; linesPrinted := n; lastFmtId := f; lastTimestamp := t;
           printed := out |}
        s1 s2 Hpeek Hskip).
Qed.

(** C1.  With a positive print limit [m] and a stream that holds at least
    [m] log messages, the loop prints [m] messages and stops: it ends with
    the stream as the m-th message left it, so that every entry after that
    message is still unread, and the output holds exactly [m] message
    lines. *)
Theorem print_limit_stops_decoding (m : Z) (s0 s_end : ifstream)
    (before rest : list Entry) (dm : DecompressedMetadata) (text : string)
    (out0 : list Output) :
  0 < m <= INT_MAX ->
  Holds s0 0 0 (before ++ LogEntry dm text :: rest) s_end ->
  countMessages before = m - 1 ->
  exists sm,
    Holds sm (fmtId dm) (timestamp dm) rest s_end /\
    messageLines (render 0 0 (before ++ [LogEntry dm text])) = Z.to_nat m /\
    forall fuel, (List.length before + 2 <= fuel)%nat ->
      decodeLoop fuel m (initialDecoder s0 out0) =
        LoopDone {| in_ := sm;
                    linesPrinted := m;
                    lastFmtId := fmtId dm;
                    lastTimestamp := timestamp dm;
                    printed := out0 ++ render 0 0 (before ++ [LogEntry dm text]) |}.
Proof.
  intros Hm Hall Hcount.
  destruct (Holds_app_inv _ _ _ _ _ _ Hall) as [mid [Hbefore Hlast]].
  inversion Hlast as [|s s1 s2 s' f t dm' fn rest' Heof Hpeek Hmeta Hfn Hrest| |]; subst.
  exists (snd (fn s2)). split; [exact Hrest|]. split.
  { rewrite messageLines_render, countMessages_app. cbn [countMessages].
    f_equal. lia. }
  intros fuel Hfuel.
  assert (Hk : exists k, fuel = (List.length before + S (S k))%nat)
    by (exists (fuel - List.length before - 2)%nat; lia).
  destruct Hk as [k ->]. unfold initialDecoder.
  rewrite (decodeLoop_holds m _ _ _ _ _ Hbefore) by lia.
  rewrite render_app. cbn [render].
  set (st := {| in_ := mid; linesPrinted := 0 + countMessages before;
                lastFmtId := fmtIdAfter 0 before;
                lastTimestamp := timestampAfter 0 before;
                printed := out0 ++ render 0 0 before |}).
  assert (Hbody : loopBody st =
            Continue {| in_ := snd (fn s2); linesPrinted := m; lastFmtId := fmtId dm;
                        lastTimestamp := timestamp dm;
                        printed := out0 ++ render 0 0 before ++
                          [MsgPrefix (0 + countMessages before)
                             (1.0e9 * toSeconds (sub64 (timestamp dm) (timestampAfter 0 before)))%float;
                           MsgText (fst (fn s2))] |}).
  { rewrite (loopBody_log_msg st s1 s2 dm Hpeek Hmeta). rewrite Hfn.
    subst st. cbn [linesPrinted lastTimestamp printed prefixLine].
    replace (0 + countMessages before =? INT_MAX) with false
      by (symmetry; apply Z.eqb_neq; lia).
    replace (0 + countMessages before + 1) with m by lia.
    rewrite <- !app_assoc. reflexivity. }
  assert (Hlimit : limitReached m st = false)
    by (apply limit_not_reached; right; subst st; cbn [linesPrinted]; lia).
  rewrite (decodeLoop_continue (S k) m st _ Heof Hlimit Hbody).
  cbn [decodeLoop in_]. destruct (eof (snd (fn s2))); [reflexivity|].
  unfold limitReached. cbn [linesPrinted].
  replace (m >? 0) with true by (symmetry; apply Z.gtb_lt; lia).
  replace (m >=? m) with true by (symmetry; apply Z.geb_le; lia).
  reflexivity.
Qed.

(** C8.  The count argument ["0"] leaves [msgsToPrint] at the zero it has
    when the argument is left out, so the two runs are the same run; and
    with that zero the limit never ends the loop: for a file that holds
    [entries] up to its end, every log message among them is printed. *)
Theorem zero_count_is_no_limit (env : Env) (program file : string) :
  (forall fuel,
     main fuel env [program; file; "0"] = main fuel env [program; file]) /\
  (forall bytes entries s',
     callocOk env = true ->
     fileContent env file = Some bytes ->
     Holds (openStream bytes) 0 0 entries s' ->
     eof s' = true ->
     countMessages entries <= INT_MAX ->
     forall fuel, (List.length entries + 1 <= fuel)%nat ->
       main fuel env [program; file; "0"] =
         (Return 0, [OpeningFile file] ++ render 0 0 entries
                      ++ [Complete (countMessages entries)])).
Proof.
  split.
  - intros fuel. reflexivity.
  - intros bytes entries s' Hcalloc Hfile Hall Heof Hmax fuel Hfuel.
    assert (Hk : exists k, fuel = (List.length entries + S k)%nat)
      by (exists (fuel - List.length entries - 1)%nat; lia).
    destruct Hk as [k ->].
    unfold main. rewrite Hcalloc.
    change (parseCount ["0"]) with (inr 0 : Result + Z).
    cbv iota. rewrite Hfile. unfold initialDecoder.
    rewrite (decodeLoop_holds 0 _ _ _ _ _ Hall) by lia.
    cbn [decodeLoop in_]. rewrite Heof. cbn [printed linesPrinted].
    rewrite <- app_assoc. reflexivity.
Qed.

End Loop.

(* ================================================================== *)
(** * The frequency announced by a checkpoint *)

Lemma tableEntry_recalibrated (h : Headers) (g : float -> float) (i : Z) :
  @tableEntry (recalibrated g h) i = @tableEntry h i.
Proof. reflexivity. Qed.

Lemma loopBody_recalibrated (h : Headers) (g : float -> float)
    (s : ifstream) (n f t : Z) (out : list Output) :
  @loopBody (recalibrated g h)
    {| in_ := s; linesPrinted := n; lastFmtId := f; lastTimestamp := t;
       printed := map (recalibrate g) out |} =
  match @loopBody h {| in_ := s; linesPrinted := n; lastFmtId := f;
                       lastTimestamp := t; printed := out |} with
  | Continue st' =>
      Continue {| in_ := in_ st'; linesPrinted := linesPrinted st';
                  lastFmtId := lastFmtId st'; lastTimestamp := lastTimestamp st';
                  printed := map (recalibrate g) (printed st') |}
  | Halt how out' => Halt how (map (recalibrate g) out')
  end.
Proof.
  unfold loopBody. cbn -[skipPadding].
  destruct (@peekEntryType h s) as [nextType in1].
  destruct nextType as [| | |value].
  - destruct (skipPadding _ in1) as [in2|]; reflexivity.
  - destruct (@decompressMetadata h in1 f t) as [dm in2].
    rewrite tableEntry_recalibrated.
    destruct (@tableEntry h (fmtId dm)) as [fn|].
    + destruct (fn in2) as [text in3].
      destruct (n =? INT_MAX); cbn; rewrite !map_app; reflexivity.
    + rewrite map_app. reflexivity.
  - destruct (@readCheckpoint h in1) as [cp in2]. cbn.
    rewrite map_app. reflexivity.
  - rewrite map_app. reflexivity.
Qed.

Lemma decodeLoop_recalibrated (h : Headers) (g : float -> float)
    (fuel : nat) (msgsToPrint : Z) (s : ifstream) (n f t : Z) (out : list Output) :
  @decodeLoop (recalibrated g h) fuel msgsToPrint
    {| in_ := s; linesPrinted := n; lastFmtId := f; lastTimestamp := t;
       printed := map (recalibrate g) out |} =
  match @decodeLoop h fuel msgsToPrint
          {| in_ := s; linesPrinted := n; lastFmtId := f; lastTimestamp := t;
             printed := out |} with
  | LoopDone st' =>
      LoopDone {| in_ := in_ st'; linesPrinted := linesPrinted st';
                  lastFmtId := lastFmtId st'; lastTimestamp := lastTimestamp st';
                  printed := map (recalibrate g) (printed st') |}
  | LoopHalt how out' => LoopHalt how (map (recalibrate g) out')
  end.
Proof.
  revert s n f t out. induction fuel as [|fuel IH]; intros s n f t out.
  - reflexivity.
  - cbn [decodeLoop in_]. destruct (eof s); [reflexivity|].
    unfold limitReached. cbn [linesPrinted].
    destruct ((msgsToPrint >? 0) && (n >=? msgsToPrint)); [reflexivity|].
    rewrite loopBody_recalibrated.
    destruct (@loopBody h _) as [[s' n' f' t' out']|how out']; [|reflexivity].
    apply IH.
Qed.

Lemma logLines_recalibrated (g : float -> float) (out : list Output) :
  filter isLogLine (map (recalibrate g) out) = filter isLogLine out.
Proof.
  induction out as [|o out IH]; [reflexivity|].
  destruct o; cbn; rewrite IH; reflexivity.
Qed.

(** C4, which fails on the code.  The claim is that the frequency a
    checkpoint announces converts the timestamps of the messages after it.
    In the code the frequency is printed and dropped: were every checkpoint
    to announce [g c] in place of [c], the run would end the same way and
    print the same output but for the echo of the frequency itself, and the
    log lines, elapsed times included, would not change. *)
Theorem checkpoint_frequency_unused (h : Headers) (g : float -> float)
    (fuel : nat) (env : Env) (argv : list string) :
  @main (recalibrated g h) fuel env argv =
    (fst (@main h fuel env argv), map (recalibrate g) (snd (@main h fuel env argv))) /\
  filter isLogLine (snd (@main (recalibrated g h) fuel env argv)) =
    filter isLogLine (snd (@main h fuel env argv)).
Proof.
  assert (Hmain : @main (recalibrated g h) fuel env argv =
            (fst (@main h fuel env argv),
             map (recalibrate g) (snd (@main h fuel env argv)))).
  { unfold main.
    destruct argv as [|program [|file rest]]; try reflexivity.
    destruct (callocOk env); [|reflexivity].
    destruct (parseCount rest) as [[how out]|msgsToPrint] eqn:Hparse.
    - unfold parseCount in Hparse. destruct rest as [|arg rest]; [discriminate|].
      destruct (stoi arg) as [v| |]; try (injection Hparse as <- <-; reflexivity).
      destruct (v <? 0); [injection Hparse as <- <-; reflexivity|discriminate].
    - destruct (fileContent env file) as [bytes|]; [|reflexivity].
      unfold initialDecoder.
      change [OpeningFile file] with (map (recalibrate g) [OpeningFile file]) at 1.
      rewrite decodeLoop_recalibrated.
      destruct (@decodeLoop h _ _ _) as [st'|how out']; [|reflexivity].
      cbn. rewrite map_app. reflexivity. }
  split; [exact Hmain|].
  rewrite Hmain. cbn [snd]. apply logLines_recalibrated.
Qed.

(* ================================================================== *)
(** * The command line *)

Lemma startsWithDigit_app (d rest : string) :
  startsWithDigit d = true -> startsWithDigit (d ++ rest) = true.
Proof. destruct d; [discriminate|auto]. Qed.

Lemma readDigits_app (d rest : string) (acc : Z) :
  allDigits d = true ->
  startsWithDigit rest = false ->
  readDigits acc (d ++ rest) = readDigits acc d.
Proof.
  revert acc. induction d as [|c d IH]; intros acc Hd Hrest.
  - destruct rest as [|c rest]; [reflexivity|]. simpl in *. rewrite Hrest. reflexivity.
  - simpl in *. apply andb_prop in Hd. destruct Hd as [Hc Hd].
    rewrite Hc. apply IH; assumption.
Qed.

Lemma skipSpaces_app (s rest : string) :
  skipSpaces s <> EmptyString ->
  skipSpaces (s ++ rest) = (skipSpaces s ++ rest)%string.
Proof.
  induction s as [|c s IH]; intros Hs; simpl in *.
  - contradiction.
  - destruct (isspace c); [apply IH, Hs|reflexivity].
Qed.

Lemma takeSign_app (s rest : string) :
  snd (takeSign s) <> EmptyString ->
  takeSign (s ++ rest) = (fst (takeSign s), (snd (takeSign s) ++ rest)%string).
Proof.
  destruct s as [|c s]; simpl; [contradiction|].
  destruct (c =? "-")%char; [reflexivity|].
  destruct (c =? "+")%char; reflexivity.
Qed.

Lemma startsWithDigit_nonempty (s : string) :
  startsWithDigit s = true -> s <> EmptyString.
Proof. destruct s; [discriminate|discriminate]. Qed.

(** Text after a numeral is not looked at. *)
Lemma stoi_trailing (numeral rest : string) :
  isNumeral numeral = true ->
  startsWithDigit rest = false ->
  stoi (numeral ++ rest) = stoi numeral.
Proof.
  unfold isNumeral, numericPart. intros Hnum Hrest.
  apply andb_prop in Hnum. destruct Hnum as [Hstart Hdigits].
  assert (Hbody : snd (takeSign (skipSpaces numeral)) <> EmptyString)
    by (apply startsWithDigit_nonempty, Hstart).
  assert (Hskip : skipSpaces numeral <> EmptyString).
  { intros Hempty. rewrite Hempty in Hbody. apply Hbody. reflexivity. }
  unfold stoi. rewrite (skipSpaces_app _ _ Hskip), (takeSign_app _ _ Hbody).
  destruct (takeSign (skipSpaces numeral)) as [negative body]. simpl in *.
  rewrite (startsWithDigit_app _ _ Hstart), Hstart.
  rewrite (readDigits_app _ _ _ Hdigits Hrest). reflexivity.
Qed.

Lemma stoi_invalid_iff (arg : string) :
  stoi arg = StoiInvalidArgument <-> hasNumericPrefix arg = false.
Proof.
  unfold stoi, hasNumericPrefix, numericPart.
  destruct (takeSign (skipSpaces arg)) as [negative body]. simpl.
  destruct (startsWithDigit body).
  - destruct ((INT_MIN <=? _) && (_ <=? INT_MAX)); split; discriminate.
  - split; reflexivity.
Qed.

Section CommandLine.

Context {headers : Headers}.

(** C7, as the code has it.  Every usage error ends the program before any
    decoding, with one complaint as its whole output, but not always with
    status 1: a missing file argument leaves through [exit(1)]; a count that
    does not parse or is negative, and a file that does not open, leave
    through [exit(-1)], which is status 255. *)
Theorem usage_errors_exit (fuel : nat) (env : Env) :
  (forall argv,
     (List.length argv < 2)%nat ->
     main fuel env argv = (Exit 1, [Usage (hd_error argv)])) /\
  (forall program file arg more,
     callocOk env = true ->
     stoi arg = StoiInvalidArgument \/ stoi arg = StoiOutOfRange \/
       (exists v, stoi arg = StoiValue v /\ v < 0) ->
     exists complaint,
       main fuel env (program :: file :: arg :: more) = (Exit (-1), [complaint]) /\
       isDecodedOutput complaint = false) /\
  (forall program file rest msgsToPrint,
     callocOk env = true ->
     parseCount rest = inr msgsToPrint ->
     fileContent env file = None ->
     main fuel env (program :: file :: rest) = (Exit (-1), [UnableToOpen file])) /\
  statusOf (Exit 1) = Some 1 /\ statusOf (Exit (-1)) = Some 255.
Proof.
  split; [|split; [|split; [|split; reflexivity]]].
  - intros argv Hlen.
    destruct argv as [|program [|file rest]]; try reflexivity.
    simpl in Hlen. lia.
  - intros program file arg more Hcalloc Hbad.
    unfold main, parseCount. rewrite Hcalloc.
    destruct Hbad as [Hbad|[Hbad|[v [Hbad Hneg]]]]; rewrite Hbad.
    + eexists. split; reflexivity.
    + eexists. split; reflexivity.
    + replace (v <? 0) with true by (symmetry; apply Z.ltb_lt; lia).
      eexists. split; reflexivity.
  - intros program file rest msgsToPrint Hcalloc Hcount Hfile.
    unfold main. rewrite Hcalloc, Hcount, Hfile. reflexivity.
Qed.

End CommandLine.

(* ================================================================== *)
(** * The properties on the sample format *)

Import Strings.Byte.

Lemma hello_holds (rest : list byte) (t : Z) (entries : list Entry) (s' : ifstream) :
  Holds (openStream rest) 0 ((t + 100) mod UINT64_MOD) entries s' ->
  Holds (openStream (Sample.helloRecord ++ rest)) 0 t
    (LogEntry {| fmtId := 0; timestamp := (t + 100) mod UINT64_MOD |} "Hello" :: entries) s'.
Proof.
  intros Hrest.
  apply (HoldsLogMessage
           (openStream (Sample.helloRecord ++ rest)) (openStream (Sample.helloRecord ++ rest))
           (openStream rest) s' 0 t
           {| fmtId := 0; timestamp := (t + 100) mod UINT64_MOD |}
           Sample.printHello entries); try reflexivity.
  exact Hrest.
Qed.

Lemma end_of_data_holds (f t : Z) :
  Holds (openStream []) f t [PaddingEntry] Sample.exhausted.
Proof.
  apply (HoldsPadding (openStream []) (setEof (openStream [])) Sample.exhausted Sample.exhausted);
    try reflexivity.
  constructor.
Qed.

Lemma mixedLog_holds : Holds (openStream Sample.mixedLog) 0 0 Sample.mixedEntries Sample.exhausted.
Proof.
  apply (HoldsCheckpoint (openStream Sample.mixedLog) (openStream Sample.mixedLog)
           (openStream (Sample.helloRecord ++ [x00; x00] ++ Sample.helloRecord)));
    try reflexivity.
  apply (hello_holds ([x00; x00] ++ Sample.helloRecord) 0).
  apply (HoldsPadding (openStream ([x00; x00] ++ Sample.helloRecord))
           (openStream ([x00; x00] ++ Sample.helloRecord))
           (openStream (Sample.helloRecord ++ []))); try reflexivity.
  apply (hello_holds [] 100).
  apply end_of_data_holds.
Qed.

Lemma tenHellos_hold :
  Holds (openStream Sample.tenHellos) 0 0
    (map Sample.helloEntry [1; 2; 3; 4; 5; 6; 7; 8; 9; 10]) (openStream []).
Proof.
  apply (hello_holds (Sample.repeatRecord 9 Sample.helloRecord) 0).
  apply (hello_holds (Sample.repeatRecord 8 Sample.helloRecord) 100).
  apply (hello_holds (Sample.repeatRecord 7 Sample.helloRecord) 200).
  apply (hello_holds (Sample.repeatRecord 6 Sample.helloRecord) 300).
  apply (hello_holds (Sample.repeatRecord 5 Sample.helloRecord) 400).
  apply (hello_holds (Sample.repeatRecord 4 Sample.helloRecord) 500).
  apply (hello_holds (Sample.repeatRecord 3 Sample.helloRecord) 600).
  apply (hello_holds (Sample.repeatRecord 2 Sample.helloRecord) 700).
  apply (hello_holds (Sample.repeatRecord 1 Sample.helloRecord) 800).
  apply (hello_holds (Sample.repeatRecord 0 Sample.helloRecord) 900).
  constructor.
Qed.

Lemma print_limit_stops_decoding_witness :
  exists sm,
    Holds sm 0 300 (map Sample.helloEntry [4; 5; 6; 7; 8; 9; 10]) (openStream []) /\
    messageLines (render 0 0 (map Sample.helloEntry [1; 2; 3])) = 3%nat /\
    decodeLoop 4 3 (initialDecoder (openStream Sample.tenHellos) [OpeningFile "log"]) =
      LoopDone {| in_ := sm;
                  linesPrinted := 3;
                  lastFmtId := 0;
                  lastTimestamp := 300;
                  printed := [OpeningFile "log"]
                             ++ render 0 0 (map Sample.helloEntry [1; 2; 3]) |}.
Proof.
  destruct (print_limit_stops_decoding 3
              (openStream Sample.tenHellos) (openStream [])
              (map Sample.helloEntry [1; 2])
              (map Sample.helloEntry [4; 5; 6; 7; 8; 9; 10])
              {| fmtId := 0; timestamp := 300 |} "Hello"
              [OpeningFile "log"]) as [sm [Hrest [Hlines Hrun]]].
  - unfold INT_MAX. lia.
  - exact tenHellos_hold.
  - reflexivity.
  - exists sm. split; [exact Hrest|]. split; [exact Hlines|].
    apply Hrun. simpl. lia.
Defined.

(** The same run, evaluated: three of the ten messages are printed and
    the seven records after them are still in the stream. *)
Example three_of_ten :
  decodeLoop 4 3 (initialDecoder (openStream Sample.tenHellos) [OpeningFile "log"]) =
    LoopDone {| in_ := openStream (Sample.repeatRecord 7 Sample.helloRecord);
                linesPrinted := 3;
                lastFmtId := 0;
                lastTimestamp := 300;
                printed := [OpeningFile "log";
                            MsgPrefix 0 50; MsgText "Hello";
                            MsgPrefix 1 50; MsgText "Hello";
                            MsgPrefix 2 50; MsgText "Hello"] |}.
Proof. reflexivity. Qed.

Lemma nonzero_invalid_byte_never_ends_witness :
  main 100 (Sample.withLog [x04]) ["decompressor"; "log"] = (OutOfFuel, [OpeningFile "log"]).
Proof.
  unfold main. cbn [callocOk Sample.withLog parseCount fileContent String.eqb Ascii.eqb Bool.eqb].
  rewrite (nonzero_invalid_byte_never_ends 0
             (initialDecoder (openStream [x04]) [OpeningFile "log"]) x04 []).
  - reflexivity.
  - reflexivity.
  - discriminate.
  - reflexivity.
  - reflexivity.
Defined.

Lemma table_lookup_unchecked_witness :
  loopBody (initialDecoder (openStream Sample.letterRecord) []) =
    Continue {| in_ := openStream [];
                linesPrinted := 1;
                lastFmtId := 1;
                lastTimestamp := 100;
                printed := [MsgPrefix 0 50; MsgText "A"] |} /\
  loopBody (initialDecoder (openStream Sample.strayRecord) []) =
    Halt (Undefined (TableIndexOutOfRange 7)) [MsgPrefix 0 50].
Proof.
  split.
  - assert (Hpeek : peekEntryType (openStream Sample.letterRecord) =
                      (LOG_MSG, openStream Sample.letterRecord)) by reflexivity.
    assert (Hmeta : decompressMetadata (openStream Sample.letterRecord) 0 0 =
                      ({| fmtId := 1; timestamp := 100 |}, openStream [x41]))
      by reflexivity.
    destruct (proj1 (table_lookup_unchecked
                       (initialDecoder (openStream Sample.letterRecord) []) _ _ _ Hpeek Hmeta))
      as [fn [Hfn Hbody]].
    + simpl. lia.
    + discriminate.
    + injection Hfn as <-. exact Hbody.
  - assert (Hpeek : peekEntryType (openStream Sample.strayRecord) =
                      (LOG_MSG, openStream Sample.strayRecord)) by reflexivity.
    assert (Hmeta : decompressMetadata (openStream Sample.strayRecord) 0 0 =
                      ({| fmtId := 7; timestamp := 100 |}, openStream []))
      by reflexivity.
    apply (proj2 (table_lookup_unchecked
                    (initialDecoder (openStream Sample.strayRecord) []) _ _ _ Hpeek Hmeta)).
    right. simpl. lia.
Defined.

Lemma stray_format_id_indexes_out_of_range :
  fst (main 5 (Sample.withLog (Sample.helloRecord ++ Sample.strayRecord)) ["decompressor"; "log"]) =
    Undefined (TableIndexOutOfRange 7) /\
  isFatalExit (fst (main 5 (Sample.withLog (Sample.helloRecord ++ Sample.strayRecord)) ["decompressor"; "log"]))
    = false.
Proof. split; reflexivity. Qed.

Lemma unrecognized_tag_exits_witness :
  (decodeLoop 1 0 (initialDecoder (openStream [x03]) [OpeningFile "log"]) =
     LoopHalt (Exit (-1)) ([OpeningFile "log"] ++ [NoSuchEntryType 3]) /\
   statusOf (Exit (-1)) = Some 255) /\
  reportedCount
    (snd (main 5 (Sample.withLog (Sample.helloRecord ++ [x03])) ["decompressor"; "log"]))
    = None.
Proof.
  destruct (@unrecognized_tag_exits Sample.headers) as [Hloop Hmain].
  split.
  - apply (Hloop O 0 (initialDecoder (openStream [x03]) [OpeningFile "log"])
             (openStream [x03]) 3); reflexivity.
  - apply (Hmain 5%nat (Sample.withLog (Sample.helloRecord ++ [x03]))
             ["decompressor"; "log"] (-1)).
    reflexivity.
Defined.

(** On an unrecognized tag the program leaves with a failure status and
    one message printed, and the closing line with the count is missing. *)
Lemma unrecognized_tag_count_not_reported :
  isFatalExit
    (fst (main 5 (Sample.withLog (Sample.helloRecord ++ [x03])) ["decompressor"; "log"]))
    = true /\
  messageLines
    (snd (main 5 (Sample.withLog (Sample.helloRecord ++ [x03])) ["decompressor"; "log"]))
    = 1%nat /\
  reportedCount
    (snd (main 5 (Sample.withLog (Sample.helloRecord ++ [x03])) ["decompressor"; "log"]))
    <> Some 1.
Proof. repeat split. discriminate. Qed.

Lemma usage_errors_exit_witness :
  main 0 (Sample.withLog []) ["decompressor"] = (Exit 1, [Usage (Some "decompressor")]) /\
  (exists complaint,
     main 0 (Sample.withLog []) ["decompressor"; "log"; "-3"] = (Exit (-1), [complaint]) /\
     isDecodedOutput complaint = false) /\
  main 0 (Sample.withLog []) ["decompressor"; "nolog"; "3"] =
    (Exit (-1), [UnableToOpen "nolog"]).
Proof.
  destruct (@usage_errors_exit Sample.headers O (Sample.withLog []))
    as [Hmissing [Hcount [Hopen _]]].
  split; [|split].
  - apply (Hmissing ["decompressor"]). simpl. lia.
  - apply (Hcount "decompressor" "log" "-3" []); [reflexivity|].
    right. right. exists (-3). split; [reflexivity|lia].
  - apply (Hopen "decompressor" "nolog" ["3"] 3); reflexivity.
Defined.

(** A count that is not a number ends the program with status 255, not 1. *)
Lemma unparsable_count_status_255 :
  statusOf (fst (main 0 (Sample.withLog []) ["decompressor"; "log"; "many"])) = Some 255 /\
  statusOf (fst (main 0 (Sample.withLog []) ["decompressor"; "log"; "many"])) <> Some 1.
Proof. split; [reflexivity|discriminate]. Qed.

Lemma zero_count_is_no_limit_witness :
  main 6 (Sample.withLog Sample.mixedLog) ["decompressor"; "log"; "0"] =
    main 6 (Sample.withLog Sample.mixedLog) ["decompressor"; "log"] /\
  main 6 (Sample.withLog Sample.mixedLog) ["decompressor"; "log"; "0"] =
    (Return 0, [OpeningFile "log"] ++ render 0 0 Sample.mixedEntries ++ [Complete 2]).
Proof.
  destruct (@zero_count_is_no_limit Sample.headers (Sample.withLog Sample.mixedLog)
              "decompressor" "log") as [Hsame Hall].
  split; [apply Hsame|].
  apply (Hall Sample.mixedLog Sample.mixedEntries Sample.exhausted).
  - reflexivity.
  - reflexivity.
  - exact mixedLog_holds.
  - reflexivity.
  - discriminate.
  - simpl. lia.
Defined.

Lemma message_index_zero_based_witness :
  nth_error
    (msgIndices (snd (main 20 (Sample.withLog Sample.tenHellos) ["decompressor"; "log"])))
    (3 - 1) = Some 2 /\
  2 = Z.of_nat 3 - 1.
Proof.
  split; [reflexivity|].
  apply (message_index_zero_based 20 (Sample.withLog Sample.tenHellos)
           ["decompressor"; "log"] 3 2); [lia|reflexivity].
Defined.

(** The failing input of C4: a checkpoint that announces 1 GHz, then two
    messages 100 cycles apart.  At 1 GHz that is 100 ns; both lines show
    50 ns, which is 100 cycles at the 2 GHz of the machine that decodes. *)
Example checkpoint_then_two_messages :
  main 5 (Sample.withLog (Sample.checkpointRecord ++ Sample.helloRecord ++ Sample.helloRecord))
    ["decompressor"; "log"] =
  (Return 0,
   [OpeningFile "log"; FoundCheckpoint 1.0e9;
    MsgPrefix 0 50; MsgText "Hello";
    MsgPrefix 1 50; MsgText "Hello";
    Complete 2]).
Proof. reflexivity. Qed.

(** The failing input of C2 as a whole run: the byte 4 carries no valid
    tag and is not padding, and the run is still in the loop after any
    number of iterations. *)
Example stray_byte_spins (fuel : nat) :
  fst (main fuel (Sample.withLog [x04]) ["decompressor"; "log"]) = OutOfFuel.
Proof.
  induction fuel as [|fuel IH]; [reflexivity|exact IH].
Qed.

(* ================================================================== *)
(** * The count argument as a decimal numeral *)

(** Reads the next character of a numeral as the digit it is. *)
Ltac read_digit :=
  match goal with
  | |- (if isdigit ?c then readDigits (10 * ?a + digitValue ?c) _ else _) = _ =>
      let v := eval vm_compute in (digitValue c) in
      change (isdigit c) with true; change (digitValue c) with v; cbv iota
  end.

Lemma readDigits_of_uint_acc (d : Decimal.uint) (acc : positive) :
  readDigits (Z.pos acc) (DecimalString.NilEmpty.string_of_uint d) =
  Z.pos (Pos.of_uint_acc d acc).
Proof.
  revert acc. induction d; intros acc; cbn -[Z.mul Z.add Pos.mul Pos.add];
    try reflexivity; read_digit;
    match goal with
    | |- readDigits ?a _ = Z.pos (Pos.of_uint_acc _ ?p) =>
        replace a with (Z.pos p) by lia
    end; apply IHd.
Qed.

Lemma readDigits_of_uint (d : Decimal.uint) :
  readDigits 0 (DecimalString.NilEmpty.string_of_uint d) = Z.of_N (Pos.of_uint d).
Proof.
  induction d; cbn -[Z.mul Z.add]; try reflexivity; read_digit;
    try exact IHd; apply (readDigits_of_uint_acc d).
Qed.

(** A numeral starts with a digit. *)
Lemma string_of_uint_starts (d : Decimal.uint) :
  d <> Decimal.Nil ->
  exists c rest,
    DecimalString.NilEmpty.string_of_uint d = String c rest /\
    isdigit c = true /\ isspace c = false /\
    (c =? "-")%char = false /\ (c =? "+")%char = false.
Proof.
  intros Hd. destruct d; try contradiction; cbn;
    eexists; eexists; (split; [reflexivity|]); repeat split; reflexivity.
Qed.

Lemma stoi_of_uint (d : Decimal.uint) :
  d <> Decimal.Nil ->
  stoi (DecimalString.NilEmpty.string_of_uint d) =
    (if Z.of_N (Pos.of_uint d) <=? INT_MAX
     then StoiValue (Z.of_N (Pos.of_uint d)) else StoiOutOfRange) /\
  stoi (String "-" (DecimalString.NilEmpty.string_of_uint d)) =
    (if INT_MIN <=? - Z.of_N (Pos.of_uint d)
     then StoiValue (- Z.of_N (Pos.of_uint d)) else StoiOutOfRange).
Proof.
  intros Hd.
  destruct (string_of_uint_starts d Hd) as [c [rest [Hs [Hdigit [Hspace [Hminus Hplus]]]]]].
  pose proof (readDigits_of_uint d) as Hvalue.
  pose proof (N2Z.is_nonneg (Pos.of_uint d)) as Hpos.
  rewrite Hs in *. unfold stoi. split.
  - cbn [skipSpaces]. rewrite Hspace. cbn [takeSign]. rewrite Hminus, Hplus.
    cbn [startsWithDigit]. rewrite Hdigit, Hvalue.
    replace (INT_MIN <=? Z.of_N (Pos.of_uint d)) with true
      by (symmetry; apply Z.leb_le; unfold INT_MIN; lia).
    reflexivity.
  - cbn [skipSpaces]. change (isspace "-") with false. cbv iota.
    cbn [takeSign]. change ("-" =? "-")%char with true. cbv iota.
    cbn [startsWithDigit]. rewrite Hdigit, Hvalue.
    replace (- Z.of_N (Pos.of_uint d) <=? INT_MAX) with true
      by (symmetry; apply Z.leb_le; unfold INT_MAX; lia).
    rewrite andb_true_r. reflexivity.
Qed.

Lemma string_of_uint_nonnil (d : Decimal.uint) :
  d <> Decimal.Nil ->
  DecimalString.NilZero.string_of_uint d = DecimalString.NilEmpty.string_of_uint d.
Proof. destruct d; [contradiction|reflexivity..]. Qed.

Lemma stoi_decimal (z : Z) :
  stoi (decimal z) =
  if (INT_MIN <=? z) && (z <=? INT_MAX) then StoiValue z else StoiOutOfRange.
Proof.
  pose proof (DecimalZ.of_to z) as Hround.
  unfold decimal. destruct z as [|p|p]; [reflexivity| |];
    pose proof (DecimalPos.Unsigned.to_uint_nonnil p) as Hnil;
    cbn [Z.to_int DecimalString.NilZero.string_of_int] in *;
    rewrite (string_of_uint_nonnil _ Hnil).
  - change (Z.of_N (Pos.of_uint (Pos.to_uint p)) = Z.pos p) in Hround.
    rewrite (proj1 (stoi_of_uint _ Hnil)), Hround.
    replace (INT_MIN <=? Z.pos p) with true
      by (symmetry; apply Z.leb_le; unfold INT_MIN; lia).
    rewrite andb_true_l. reflexivity.
  - change (- Z.of_N (Pos.of_uint (Pos.to_uint p)) = Z.neg p) in Hround.
    rewrite (proj2 (stoi_of_uint _ Hnil)), Hround.
    replace (Z.neg p <=? INT_MAX) with true
      by (symmetry; apply Z.leb_le; unfold INT_MAX; lia).
    rewrite andb_true_r. reflexivity.
Qed.

(** X8.  A count typed as the decimal numeral of [z] is taken as [z] when
    [0 <= z <= INT_MAX]; a negative [z] that fits an [int] is refused as not
    positive; a [z] outside the range of [int], above or below, is refused
    as too large. *)
Theorem decimal_count (z : Z) (more : list string) :
  parseCount (decimal z :: more) =
    if (z <? INT_MIN) || (INT_MAX <? z)
    then inl (Exit (-1), [CountTooLarge (decimal z)])
    else if z <? 0 then inl (Exit (-1), [CountNotPositive (decimal z)])
    else inr z.
Proof.
  unfold parseCount. rewrite stoi_decimal.
  destruct (INT_MIN <=? z) eqn:Hlow; destruct (z <=? INT_MAX) eqn:Hhigh; cbn [andb].
  - replace (z <? INT_MIN) with false by (symmetry; apply Z.ltb_ge; lia).
    replace (INT_MAX <? z) with false by (symmetry; apply Z.ltb_ge; lia).
    reflexivity.
  - replace (INT_MAX <? z) with true by (symmetry; apply Z.ltb_lt; lia).
    rewrite orb_true_r. reflexivity.
  - replace (z <? INT_MIN) with true by (symmetry; apply Z.ltb_lt; lia).
    reflexivity.
  - replace (z <? INT_MIN) with true by (symmetry; apply Z.ltb_lt; lia).
    reflexivity.
Qed.

(* ================================================================== *)
(** * The padding loop *)

Lemma skipPadding_not_good (n : nat) (s : ifstream) :
  good s = false -> skipPadding n s = Some (setFail s).
Proof.
  intros Hgood. destruct n; simpl; unfold peek; rewrite Hgood; reflexivity.
Qed.

Lemma skipPadding_open (buf : list Byte.byte) :
  skipPadding (List.length buf) (openStream buf) = Some (afterPadding (openStream buf)).
Proof.
  induction buf as [|b buf IH].
  - reflexivity.
  - cbn [List.length skipPadding]. unfold peek, good. cbn [eofbit failbit negb andb rdbuf openStream].
    unfold afterPadding, good. cbn [eofbit failbit negb andb rdbuf openStream dropZeros].
    destruct (byteValue b =? 0) eqn:Hb; cbn [andb].
    + unfold get, good. cbn [eofbit failbit negb andb rdbuf snd].
      exact IH.
    + reflexivity.
Qed.

Lemma dropZeros_split (buf : list Byte.byte) :
  exists zeros,
    buf = zeros ++ dropZeros buf /\
    Forall (fun b => byteValue b = 0) zeros /\
    (forall b rest, dropZeros buf = b :: rest -> byteValue b <> 0).
Proof.
  induction buf as [|b buf [zeros [Hsplit [Hzeros Hhead]]]].
  - exists []. repeat split; [constructor|discriminate].
  - cbn [dropZeros]. destruct (byteValue b =? 0) eqn:Hb.
    + exists (b :: zeros). split; [cbn; f_equal; exact Hsplit|].
      split; [constructor; [apply Z.eqb_eq, Hb|exact Hzeros]|exact Hhead].
    + exists []. split; [reflexivity|]. split; [constructor|].
      intros b' rest' Heq. injection Heq as <- _. apply Z.eqb_neq, Hb.
Qed.

(** X4.  The padding loop [while (in.peek() == 0 && in.good()) in.get();]
    always ends, and leaves this: from a good stream exactly the zero bytes
    at the front are extracted, the byte after them is not zero and stays,
    and [eofbit] is raised when nothing follows the zeros; a stream that is
    not good only gets [failbit]. *)
Theorem padding_loop_drops_leading_zeros (s : ifstream) :
  skipPadding (List.length (rdbuf s)) s = Some (afterPadding s) /\
  exists zeros,
    rdbuf s = zeros ++ dropZeros (rdbuf s) /\
    Forall (fun b => byteValue b = 0) zeros /\
    (forall b rest, dropZeros (rdbuf s) = b :: rest -> byteValue b <> 0).
Proof.
  split; [|apply dropZeros_split].
  destruct (good s) eqn:Hgood.
  - destruct s as [buf e f]. unfold good in Hgood. cbn in Hgood.
    destruct e, f; try discriminate. apply skipPadding_open.
  - rewrite (skipPadding_not_good _ s Hgood). unfold afterPadding.
    rewrite Hgood. reflexivity.
Qed.

(* ================================================================== *)
(** * What every run keeps *)

Lemma stoi_in_int_range (s : string) (v : Z) :
  stoi s = StoiValue v -> INT_MIN <= v <= INT_MAX.
Proof.
  unfold stoi. destruct (takeSign (skipSpaces s)) as [negative body].
  destruct (startsWithDigit body); [|discriminate].
  match goal with
  | |- (if ?c then _ else _) = _ -> _ => destruct c eqn:Hrange; [|discriminate]
  end.
  intros Hv. injection Hv as <-. apply andb_prop in Hrange. lia.
Qed.

Lemma parseCount_in_int_range (rest : list string) (msgsToPrint : Z) :
  parseCount rest = inr msgsToPrint -> 0 <= msgsToPrint <= INT_MAX.
Proof.
  unfold parseCount. destruct rest as [|arg rest].
  - intros Hm. injection Hm as <-. unfold INT_MAX. lia.
  - destruct (stoi arg) as [v| |] eqn:Hstoi; try discriminate.
    destruct (v <? 0) eqn:Hneg; [discriminate|].
    intros Hm. injection Hm as <-.
    apply stoi_in_int_range in Hstoi. apply Z.ltb_ge in Hneg. lia.
Qed.

Lemma parseCount_complains (rest : list string) (ended : Result) :
  parseCount rest = inl ended ->
  exists complaint,
    ended = (Exit (-1), [complaint]) /\ isComplaint complaint = true /\
    forall size, complaint <> MallocFailed size.
Proof.
  unfold parseCount. destruct rest as [|arg rest]; [discriminate|].
  destruct (stoi arg) as [v| |].
  - destruct (v <? 0); [|discriminate].
    intros Hend. injection Hend as <-. eexists. repeat split. discriminate.
  - intros Hend. injection Hend as <-. eexists. repeat split. discriminate.
  - intros Hend. injection Hend as <-. eexists. repeat split. discriminate.
Qed.

Section EveryRun.

Context {headers : Headers}.

(** The five ways through [main]. *)
Lemma main_cases (fuel : nat) (env : Env) (argv : list string) :
  ((List.length argv < 2)%nat /\ main fuel env argv = (Exit 1, [Usage (hd_error argv)])) \/
  exists program file rest,
    argv = program :: file :: rest /\
    ((callocOk env = false /\
      main fuel env argv = (Exit (-1), [MallocFailed bufferSize])) \/
     (callocOk env = true /\
      exists complaint,
        parseCount rest = inl (Exit (-1), [complaint]) /\
        isComplaint complaint = true /\
        (forall size, complaint <> MallocFailed size) /\
        main fuel env argv = (Exit (-1), [complaint])) \/
     (callocOk env = true /\
      exists msgsToPrint,
        parseCount rest = inr msgsToPrint /\
        0 <= msgsToPrint <= INT_MAX /\
        ((fileContent env file = None /\
          main fuel env argv = (Exit (-1), [UnableToOpen file])) \/
         exists bytes,
           fileContent env file = Some bytes /\
           main fuel env argv =
             finish (decodeLoop fuel msgsToPrint
                       (initialDecoder (openStream bytes) [OpeningFile file]))))).
Proof.
  destruct argv as [|program [|file rest]].
  - left. split; [simpl; lia|reflexivity].
  - left. split; [simpl; lia|reflexivity].
  - right. exists program, file, rest. split; [reflexivity|].
    unfold main. destruct (callocOk env); [right|left; split; reflexivity].
    destruct (parseCount rest) as [ended|msgsToPrint] eqn:Hcount.
    + left. split; [reflexivity|].
      destruct (parseCount_complains rest ended Hcount)
        as [complaint [-> [Hcomplaint Hother]]].
      exists complaint. repeat split; assumption.
    + right. split; [reflexivity|]. exists msgsToPrint.
      split; [reflexivity|]. split; [apply (parseCount_in_int_range rest), Hcount|].
      destruct (fileContent env file) as [bytes|].
      * right. exists bytes. split; reflexivity.
      * left. split; reflexivity.
Qed.

Lemma tableEntry_none (i : Z) :
  tableEntry i = None ->
  i < 0 \/ Z.of_nat (List.length decompressAndPrintFnArray) <= i.
Proof.
  unfold tableEntry. destruct (i <? 0) eqn:Hneg.
  - intros _. left. apply Z.ltb_lt, Hneg.
  - intros Hnone. apply nth_error_None in Hnone. apply Z.ltb_ge in Hneg. right. lia.
Qed.

Lemma counted_other (st : Decoder) (s : ifstream) (f t : Z) (o : Output) :
  messageLines [o] = O -> msgIndices [o] = [] ->
  counted st ->
  counted {| in_ := s; linesPrinted := linesPrinted st; lastFmtId := f;
             lastTimestamp := t; printed := printed st ++ [o] |}.
Proof.
  intros Hlines Hindices [Hcount Hboth]. unfold counted. cbn [linesPrinted printed].
  rewrite messageLines_app, msgIndices_app, Hlines, Hindices, app_nil_r, Nat.add_0_r.
  split; assumption.
Qed.

(** One iteration keeps the counter in step with the output, only adds to
    the output, and stops the program for three reasons only. *)
Lemma loopBody_counted (st : Decoder) :
  counted st ->
  match loopBody st with
  | Continue st' =>
      counted st' /\ (exists tail, printed st' = printed st ++ tail) /\
      linesPrinted st <= linesPrinted st' <= linesPrinted st + 1
  | Halt how out =>
      (exists tail, out = printed st ++ tail) /\
      (messageLines out <= S (messageLines (printed st)))%nat /\
      (List.length (msgIndices out) <= S (messageLines (printed st)))%nat /\
      match how with
      | Exit code => code = -1 /\ exists value, out = printed st ++ [NoSuchEntryType value]
      | Undefined (TableIndexOutOfRange i) =>
          i < 0 \/ Z.of_nat (List.length decompressAndPrintFnArray) <= i
      | Undefined SignedOverflow =>
          linesPrinted st = INT_MAX /\ messageLines out = S (messageLines (printed st))
      | Return _ | OutOfFuel => False
      end
  end.
Proof.
  intros Hst. pose proof Hst as [Hcount Hboth]. unfold loopBody.
  destruct (peekEntryType (in_ st)) as [nextType in1].
  destruct nextType as [| | |value].
  - rewrite (proj1 (padding_loop_drops_leading_zeros in1)).
    split; [exact Hst|]. split; [exists []; symmetry; apply app_nil_r|].
    cbn [linesPrinted]. lia.
  - destruct (decompressMetadata in1 (lastFmtId st) (lastTimestamp st)) as [dm in2].
    destruct (tableEntry (fmtId dm)) as [fn|] eqn:Hfn.
    + destruct (fn in2) as [text in3].
      destruct (linesPrinted st =? INT_MAX) eqn:Hmax.
      * split; [eexists; rewrite <- app_assoc; reflexivity|].
        rewrite !messageLines_app, !msgIndices_app, !length_app. cbn.
        repeat split; lia.
      * split.
        { unfold counted. cbn [linesPrinted printed].
          rewrite !messageLines_app, !msgIndices_app, !length_app. cbn. lia. }
        split; [eexists; rewrite <- app_assoc; reflexivity|].
        cbn [linesPrinted]. lia.
    + split; [eexists; reflexivity|].
      rewrite !messageLines_app, !msgIndices_app, !length_app. cbn.
      repeat split; try lia. apply tableEntry_none, Hfn.
  - destruct (readCheckpoint in1) as [cp in2].
    split; [apply counted_other; [reflexivity|reflexivity|exact Hst]|].
    split; [eexists; reflexivity|]. cbn [linesPrinted]. lia.
  - split; [eexists; reflexivity|].
    rewrite !messageLines_app, !msgIndices_app, !length_app. cbn.
    repeat split; try lia. exists value. reflexivity.
Qed.

Lemma limit_not_reached_inv (msgsToPrint : Z) (st : Decoder) :
  limitReached msgsToPrint st = false ->
  msgsToPrint <= 0 \/ linesPrinted st < msgsToPrint.
Proof.
  unfold limitReached. intros Hlimit. apply andb_false_iff in Hlimit.
  destruct Hlimit as [Hm|Hn]; [left; lia|right; lia].
Qed.

(** The same for a whole run of the loop. *)
Lemma decodeLoop_counted (fuel : nat) (msgsToPrint : Z) (st : Decoder) :
  counted st ->
  match decodeLoop fuel msgsToPrint st with
  | LoopDone st' =>
      counted st' /\ (exists tail, printed st' = printed st ++ tail) /\
      (0 < msgsToPrint -> linesPrinted st <= msgsToPrint ->
       linesPrinted st' <= msgsToPrint)
  | LoopHalt how out =>
      (exists tail, out = printed st ++ tail) /\
      (0 < msgsToPrint -> linesPrinted st <= msgsToPrint ->
       (messageLines out <= Z.to_nat msgsToPrint)%nat /\
       (List.length (msgIndices out) <= Z.to_nat msgsToPrint)%nat) /\
      match how with
      | Exit code =>
          code = -1 /\
          exists middle value, out = printed st ++ middle ++ [NoSuchEntryType value]
      | Undefined (TableIndexOutOfRange i) =>
          i < 0 \/ Z.of_nat (List.length decompressAndPrintFnArray) <= i
      | Undefined SignedOverflow =>
          (msgsToPrint <= 0 \/ INT_MAX < msgsToPrint) /\
          messageLines out = S (Z.to_nat INT_MAX)
      | Return _ => False
      | OutOfFuel => True
      end
  end.
Proof.
  revert st. induction fuel as [|fuel IH]; intros st Hst; cbn [decodeLoop].
  - pose proof Hst as [Hcount Hboth].
    split; [exists []; symmetry; apply app_nil_r|]. split; [|exact I].
    intros Hm Hle. rewrite Hboth. lia.
  - destruct (eof (in_ st)).
    { split; [exact Hst|]. split; [exists []; symmetry; apply app_nil_r|auto]. }
    destruct (limitReached msgsToPrint st) eqn:Hlimit.
    { split; [exact Hst|]. split; [exists []; symmetry; apply app_nil_r|auto]. }
    apply limit_not_reached_inv in Hlimit.
    pose proof Hst as [Hcount Hboth].
    pose proof (loopBody_counted st Hst) as Hbody.
    destruct (loopBody st) as [st'|how out].
    + destruct Hbody as [Hst' [[tail Htail] Hstep]].
      specialize (IH st' Hst').
      destruct (decodeLoop fuel msgsToPrint st') as [st''|how out].
      * destruct IH as [Hst'' [[tail' Htail'] Hbound]].
        split; [exact Hst''|].
        split; [exists (tail ++ tail'); rewrite Htail', Htail, app_assoc; reflexivity|].
        intros Hm Hle. apply Hbound; lia.
      * destruct IH as [[tail' Htail'] [Hbound Hcause]].
        split; [exists (tail ++ tail'); rewrite Htail', Htail, app_assoc; reflexivity|].
        split; [intros Hm Hle; apply Hbound; lia|].
        destruct how as [code|code|[i|]|]; try exact Hcause.
        destruct Hcause as [Hcode [middle [value Hout]]]. split; [exact Hcode|].
        exists (tail ++ middle), value.
        rewrite Hout, Htail, <- !app_assoc. reflexivity.
    + destruct Hbody as [Htail [Hlines [Hindices Hcause]]].
      split; [exact Htail|].
      split; [intros Hm Hle; lia|].
      destruct how as [code|code|[i|]|]; try exact Hcause.
      * destruct Hcause as [Hcode [value Hout]]. split; [exact Hcode|].
        exists [], value. exact Hout.
      * destruct Hcause as [Hmax Hout]. split; [lia|]. rewrite Hout. f_equal. lia.
      * exact I.
Qed.

Lemma initial_counted (s : ifstream) (file : string) :
  counted (initialDecoder s [OpeningFile file]).
Proof. split; reflexivity. Qed.

(** Nothing printed while decoding is a complaint. *)
Lemma decodeLoop_no_complaint (fuel : nat) (msgsToPrint : Z) (st : Decoder) :
  Forall (fun o => isComplaint o = false) (printed st) ->
  Forall (fun o => isComplaint o = false) (outputOf (decodeLoop fuel msgsToPrint st)).
Proof.
  revert st. induction fuel as [|fuel IH]; intros st Hst; cbn [decodeLoop]; [exact Hst|].
  destruct (eof (in_ st)); [exact Hst|].
  destruct (limitReached msgsToPrint st); [exact Hst|].
  unfold loopBody.
  destruct (peekEntryType (in_ st)) as [nextType in1].
  destruct nextType as [| | |value].
  - destruct (skipPadding _ in1) as [in2|]; [apply IH|]; exact Hst.
  - destruct (decompressMetadata in1 (lastFmtId st) (lastTimestamp st)) as [dm in2].
    destruct (tableEntry (fmtId dm)) as [fn|].
    + destruct (fn in2) as [text in3].
      destruct (linesPrinted st =? INT_MAX); [|apply IH];
        cbn [printed outputOf]; repeat (apply Forall_app; split); auto.
    + cbn [outputOf]. apply Forall_app. split; auto.
  - destruct (readCheckpoint in1) as [cp in2]. apply IH.
    cbn [printed]. apply Forall_app. split; auto.
  - cbn [outputOf]. apply Forall_app. split; auto.
Qed.

(** A run that reaches the loop, with what the loop did. *)
Lemma main_decodes (fuel : nat) (env : Env) (program file : string)
    (rest : list string) (msgsToPrint : Z) (bytes : list Byte.byte) :
  callocOk env = true ->
  parseCount rest = inr msgsToPrint ->
  fileContent env file = Some bytes ->
  main fuel env (program :: file :: rest) =
    finish (decodeLoop fuel msgsToPrint
              (initialDecoder (openStream bytes) [OpeningFile file])).
Proof.
  intros Hcalloc Hcount Hfile. unfold main. rewrite Hcalloc, Hcount, Hfile. reflexivity.
Qed.

Lemma paired_app (a b : list Output) :
  paired a = true -> paired (a ++ b) = paired b.
Proof.
  assert (Hall : forall n a, (List.length a <= n)%nat ->
            paired a = true -> paired (a ++ b) = paired b).
  { induction n as [|n IH]; intros a' Hlen Ha.
    - destruct a'; [reflexivity|simpl in Hlen; lia].
    - destruct a' as [|o a']; [reflexivity|].
      destruct o; cbn [paired app] in *;
        try (apply IH; [simpl in Hlen; lia|exact Ha]); try discriminate.
      destruct a' as [|o' a']; [discriminate|].
      destruct o'; try discriminate. cbn [app].
      apply IH; [simpl in Hlen; lia|exact Ha]. }
  apply (Hall (List.length a) a). lia.
Qed.

(** The loop prints a message as a prefix and its text, one behind the
    other, and keeps what was printed before. *)
Lemma decodeLoop_paired (fuel : nat) (msgsToPrint : Z) (st : Decoder) :
  paired (printed st) = true ->
  match decodeLoop fuel msgsToPrint st with
  | LoopDone st' => paired (printed st') = true
  | LoopHalt _ _ => True
  end.
Proof.
  revert st. induction fuel as [|fuel IH]; intros st Hst; cbn [decodeLoop]; [exact I|].
  destruct (eof (in_ st)); [exact Hst|].
  destruct (limitReached msgsToPrint st); [exact Hst|].
  unfold loopBody.
  destruct (peekEntryType (in_ st)) as [nextType in1].
  destruct nextType as [| | |value]; try exact I.
  - destruct (skipPadding _ in1) as [in2|]; [apply IH; exact Hst|exact I].
  - destruct (decompressMetadata in1 (lastFmtId st) (lastTimestamp st)) as [dm in2].
    destruct (tableEntry (fmtId dm)) as [fn|]; [|exact I].
    destruct (fn in2) as [text in3].
    destruct (linesPrinted st =? INT_MAX); [exact I|].
    apply IH. cbn [printed]. rewrite <- app_assoc, (paired_app _ _ Hst). reflexivity.
  - destruct (readCheckpoint in1) as [cp in2].
    apply IH. cbn [printed]. rewrite (paired_app _ _ Hst). reflexivity.
Qed.

(** X2.  When [main] returns, it returns 0, and the count in the closing
    line is the number of message lines in the output; each message text
    stands right behind its prefix and each prefix right in front of its
    text. *)
Theorem closing_count_is_accurate (fuel : nat) (env : Env) (argv : list string)
    (code : Z) :
  fst (main fuel env argv) = Return code ->
  code = 0 /\
  reportedCount (snd (main fuel env argv)) =
    Some (Z.of_nat (messageLines (snd (main fuel env argv)))) /\
  List.length (msgIndices (snd (main fuel env argv))) =
    messageLines (snd (main fuel env argv)) /\
  paired (snd (main fuel env argv)) = true.
Proof.
  destruct (main_cases fuel env argv)
    as [[_ Hmain]|[program [file [rest [-> [[_ Hmain]|[[_ Hmain]|[_ Hmain]]]]]]]].
  - rewrite Hmain. discriminate.
  - rewrite Hmain. discriminate.
  - destruct Hmain as [complaint [_ [_ [_ Hmain]]]]. rewrite Hmain. discriminate.
  - destruct Hmain as [msgsToPrint [_ [_ [[_ Hmain]|[bytes [_ Hmain]]]]]];
      rewrite Hmain; [discriminate|].
    pose proof (decodeLoop_counted fuel msgsToPrint _
                  (initial_counted (openStream bytes) file)) as Hloop.
    pose proof (decodeLoop_reports_nothing fuel msgsToPrint
                  (initialDecoder (openStream bytes) [OpeningFile file]) eq_refl) as Hnone.
    pose proof (decodeLoop_paired fuel msgsToPrint
                  (initialDecoder (openStream bytes) [OpeningFile file]) eq_refl) as Hpaired.
    destruct (decodeLoop _ _ _) as [st|how out]; cbn [finish fst snd].
    + destruct Hloop as [[Hcount Hboth] _]. intros Hcode. injection Hcode as <-.
      split; [reflexivity|].
      rewrite reportedCount_app, Hnone, messageLines_app, msgIndices_app, length_app.
      rewrite (paired_app _ _ Hpaired).
      cbn [reportedCount messageLines msgIndices List.length paired].
      rewrite !Nat.add_0_r. split; [f_equal; exact Hcount|]. split; [exact Hboth|reflexivity].
    + intros ->. destruct Hloop as [_ [_ []]].
Qed.

(** X1.  With a count [m > 0] on the command line, no run prints more than
    [m] messages, whatever the file holds: at most [m] prefixes, at most [m]
    texts; and the line counter never overflows. *)
Theorem print_limit_bounds_every_run (fuel : nat) (env : Env)
    (program file arg : string) (more : list string) (m : Z) :
  stoi arg = StoiValue m ->
  0 < m ->
  (messageLines (snd (main fuel env (program :: file :: arg :: more))) <= Z.to_nat m)%nat /\
  (List.length (msgIndices (snd (main fuel env (program :: file :: arg :: more))))
     <= Z.to_nat m)%nat /\
  fst (main fuel env (program :: file :: arg :: more)) <> Undefined SignedOverflow.
Proof.
  intros Harg Hm.
  assert (Hcount : parseCount (arg :: more) = inr m).
  { unfold parseCount. rewrite Harg.
    replace (m <? 0) with false by (symmetry; apply Z.ltb_ge; lia). reflexivity. }
  pose proof (stoi_in_int_range arg m Harg) as Hrange.
  unfold main. rewrite Hcount.
  destruct (callocOk env); [|cbn; repeat split; try lia; discriminate].
  destruct (fileContent env file) as [bytes|]; [|cbn; repeat split; try lia; discriminate].
  pose proof (decodeLoop_counted fuel m _ (initial_counted (openStream bytes) file)) as Hloop.
  destruct (decodeLoop _ _ _) as [st|how out]; cbn [fst snd].
  - destruct Hloop as [[Hlines Hboth] [_ Hbound]].
    specialize (Hbound Hm ltac:(cbn; lia)).
    rewrite messageLines_app, msgIndices_app, length_app. cbn.
    repeat split; try lia. discriminate.
  - destruct Hloop as [_ [Hbound Hcause]].
    specialize (Hbound Hm ltac:(cbn; lia)).
    repeat split; try lia.
    intros ->. destruct Hcause as [Hbad _]. lia.
Qed.


(** X9.  The complaint about the staging buffer is printed exactly when
    [calloc] fails in a run that has a file argument; it then names the
    64 MiB asked for and is the whole output, the count argument is not
    looked at and the file is not opened, and the status is 255. *)
Theorem allocation_failure_exits (fuel : nat) (env : Env) (argv : list string) :
  ((exists size, In (MallocFailed size) (snd (main fuel env argv))) <->
   callocOk env = false /\ (2 <= List.length argv)%nat) /\
  (callocOk env = false -> (2 <= List.length argv)%nat ->
   main fuel env argv = (Exit (-1), [MallocFailed 67108864]) /\
   statusOf (fst (main fuel env argv)) = Some 255).
Proof.
  destruct (main_cases fuel env argv)
    as [[Hlen Hmain]|[program [file [rest [-> [[Hcalloc Hmain]|[[Hcalloc Hmain]|[Hcalloc Hmain]]]]]]]].
  - rewrite Hmain. split; [|intros _ Hlen'; lia]. split.
    + intros [size [Hin|[]]]. discriminate.
    + intros [_ Hlen']. lia.
  - rewrite Hmain. split; [|intros _ _; split; reflexivity]. split.
    + intros _. split; [exact Hcalloc|simpl; lia].
    + intros _. exists bufferSize. left. reflexivity.
  - destruct Hmain as [complaint [_ [_ [Hother Hmain]]]]. rewrite Hmain.
    split; [|intros Hfalse; congruence]. split.
    + intros [size [Hin|[]]]. destruct (Hother size Hin).
    + intros [Hfalse _]. congruence.
  - split; [|intros Hfalse; congruence]. split; [|intros [Hfalse _]; congruence].
    intros [size Hin]. exfalso.
    destruct Hmain as [msgsToPrint [_ [_ [[_ Hmain]|[bytes [_ Hmain]]]]]];
      rewrite Hmain in Hin.
    + destruct Hin as [Hin|[]]. discriminate.
    + pose proof (decodeLoop_no_complaint fuel msgsToPrint
                    (initialDecoder (openStream bytes) [OpeningFile file])
                    ltac:(repeat constructor)) as Hquiet.
      destruct (decodeLoop _ _ _) as [st|how out]; cbn [finish snd outputOf] in *.
      * apply in_app_or in Hin. destruct Hin as [Hin|[Hin|[]]]; [|discriminate].
        rewrite Forall_forall in Hquiet. specialize (Hquiet _ Hin). discriminate.
      * rewrite Forall_forall in Hquiet. specialize (Hquiet _ Hin). discriminate.
Qed.

(** X10.  A run that gets as far as opening the file prints the opening
    line first; everything after it comes from decoding, and none of it is
    a complaint. *)
Theorem opening_line_comes_first (fuel : nat) (env : Env) (program file : string)
    (rest : list string) (msgsToPrint : Z) (bytes : list Byte.byte) :
  callocOk env = true ->
  parseCount rest = inr msgsToPrint ->
  fileContent env file = Some bytes ->
  exists tail,
    snd (main fuel env (program :: file :: rest)) = OpeningFile file :: tail /\
    Forall (fun o => isComplaint o = false) tail.
Proof.
  intros Hcalloc Hcount Hfile.
  rewrite (main_decodes fuel env program file rest msgsToPrint bytes Hcalloc Hcount Hfile).
  pose proof (decodeLoop_counted fuel msgsToPrint _
                (initial_counted (openStream bytes) file)) as Hloop.
  pose proof (decodeLoop_no_complaint fuel msgsToPrint
                (initialDecoder (openStream bytes) [OpeningFile file])
                ltac:(repeat constructor)) as Hquiet.
  destruct (decodeLoop _ _ _) as [st|how out]; cbn [finish snd outputOf] in *.
  - destruct Hloop as [_ [[tail Htail] _]]. cbn [printed initialDecoder] in Htail.
    exists (tail ++ [Complete (linesPrinted st)]). rewrite Htail in *.
    split; [reflexivity|].
    apply Forall_app. split; [|repeat constructor].
    inversion Hquiet; assumption.
  - destruct Hloop as [[tail Htail] _]. cbn [printed initialDecoder] in Htail.
    exists tail. rewrite Htail in *. split; [reflexivity|].
    inversion Hquiet; assumption.
Qed.

(** X11.  A run that gets as far as decoding and comes to an end does so
    in one of four ways and no other: the loop ends and [main] returns 0; an
    unrecognized tag is reported as the last line and the program leaves
    through [exit(-1)]; the table is indexed outside its bounds; the line
    counter overflows, which takes no print limit and 2^31 messages. *)
Theorem how_decoding_stops (fuel : nat) (env : Env) (program file : string)
    (rest : list string) (msgsToPrint : Z) (bytes : list Byte.byte) :
  callocOk env = true ->
  parseCount rest = inr msgsToPrint ->
  fileContent env file = Some bytes ->
  fst (main fuel env (program :: file :: rest)) <> OutOfFuel ->
  match fst (main fuel env (program :: file :: rest)) with
  | Return code => code = 0
  | Exit code =>
      code = -1 /\
      exists middle value,
        snd (main fuel env (program :: file :: rest)) =
          OpeningFile file :: middle ++ [NoSuchEntryType value]
  | Undefined (TableIndexOutOfRange i) =>
      i < 0 \/ Z.of_nat (List.length decompressAndPrintFnArray) <= i
  | Undefined SignedOverflow =>
      msgsToPrint = 0 /\
      messageLines (snd (main fuel env (program :: file :: rest))) = S (Z.to_nat INT_MAX)
  | OutOfFuel => False
  end.
Proof.
  intros Hcalloc Hcount Hfile.
  pose proof (parseCount_in_int_range rest msgsToPrint Hcount) as Hrange.
  rewrite (main_decodes fuel env program file rest msgsToPrint bytes Hcalloc Hcount Hfile).
  intros Hended.
  pose proof (decodeLoop_counted fuel msgsToPrint _
                (initial_counted (openStream bytes) file)) as Hloop.
  destruct (decodeLoop _ _ _) as [st|how out]; cbn [finish fst snd]; [reflexivity|].
  destruct Hloop as [_ [_ Hcause]].
  destruct how as [code|code|[i|]|]; try exact Hcause.
  - destruct Hcause.
  - destruct Hcause as [[Hm|Hm] Hlines]; split; try exact Hlines; lia.
  - apply Hended. reflexivity.
Qed.

Lemma decodeLoop_generous (fuel : nat) (m : Z) (st : Decoder) :
  0 < m ->
  counted st ->
  Z.of_nat (messageLines (outputOf (decodeLoop fuel 0 st))) < m ->
  decodeLoop fuel m st = decodeLoop fuel 0 st.
Proof.
  intros Hm. revert st. induction fuel as [|fuel IH]; intros st Hst Hfew; [reflexivity|].
  pose proof (decodeLoop_counted (S fuel) 0 st Hst) as Hrun.
  cbn [decodeLoop] in *.
  destruct (eof (in_ st)); [reflexivity|].
  replace (limitReached 0 st) with false in * by reflexivity.
  assert (Hlimit : limitReached m st = false).
  { apply limit_not_reached. right. destruct Hst as [Hcount _]. rewrite Hcount.
    destruct (loopBody st) as [st'|how out].
    - destruct (decodeLoop fuel 0 st') as [st''|how out]; cbn [outputOf] in *.
      + destruct Hrun as [_ [[tail Htail] _]]. rewrite Htail, messageLines_app in Hfew. lia.
      + destruct Hrun as [[tail Htail] _]. rewrite Htail, messageLines_app in Hfew. lia.
    - cbn [outputOf] in *.
      destruct Hrun as [[tail Htail] _]. rewrite Htail, messageLines_app in Hfew. lia. }
  rewrite Hlimit.
  pose proof (loopBody_counted st Hst) as Hbody.
  destruct (loopBody st) as [st'|how out]; [|reflexivity].
  apply IH; [apply Hbody|exact Hfew].
Qed.

(** X6.  A print limit above the number of messages a run prints without
    limit changes nothing: the run with the limit is the run without. *)
Theorem generous_limit_is_no_limit (fuel : nat) (env : Env)
    (program file arg : string) (more : list string) (m : Z) :
  stoi arg = StoiValue m ->
  Z.of_nat (messageLines (snd (main fuel env [program; file]))) < m ->
  main fuel env (program :: file :: arg :: more) = main fuel env [program; file].
Proof.
  intros Harg Hfew.
  assert (Hm : 0 < m) by lia.
  assert (Hcount : parseCount (arg :: more) = inr m).
  { unfold parseCount. rewrite Harg.
    replace (m <? 0) with false by (symmetry; apply Z.ltb_ge; lia). reflexivity. }
  unfold main in *. rewrite Hcount. cbn [parseCount] in *.
  destruct (callocOk env); [|reflexivity].
  destruct (fileContent env file) as [bytes|]; [|reflexivity].
  rewrite decodeLoop_generous; [reflexivity|exact Hm|apply initial_counted|].
  destruct (decodeLoop fuel 0 _) as [st|how out]; cbn [snd outputOf] in *;
    [|exact Hfew].
  rewrite messageLines_app in Hfew. cbn in Hfew. lia.
Qed.

Lemma dropZeros_repeat (n : nat) : dropZeros (repeat Byte.x00 n) = [].
Proof. induction n as [|n IH]; [reflexivity|exact IH]. Qed.

(** X5.  A file that is empty, or holds nothing but zero bytes, is decoded
    to no message at all and a normal end, provided that [peekEntryType]
    answers [INVALID] in front of it after doing no more than peek: the
    padding loop runs to the end of the data, and the loop test ends the
    run. *)
Theorem zero_filled_log_completes (env : Env) (program file : string) (n : nat) :
  callocOk env = true ->
  fileContent env file = Some (repeat Byte.x00 n) ->
  peekEntryType (openStream (repeat Byte.x00 n)) =
    (INVALID, snd (peek (openStream (repeat Byte.x00 n)))) ->
  forall fuel, (2 <= fuel)%nat ->
    main fuel env [program; file] = (Return 0, [OpeningFile file; Complete 0]).
Proof.
  intros Hcalloc Hfile Hpeek fuel Hfuel.
  destruct fuel as [|[|fuel]]; try lia.
  rewrite (main_decodes _ env program file [] 0 _ Hcalloc eq_refl Hfile).
  set (st := initialDecoder (openStream (repeat Byte.x00 n)) [OpeningFile file]).
  assert (Hbody : exists s', loopBody st =
            Continue {| in_ := s'; linesPrinted := 0; lastFmtId := 0; lastTimestamp := 0;
                        printed := [OpeningFile file] |} /\ eof s' = true).
  { exists (afterPadding (snd (peek (openStream (repeat Byte.x00 n))))). split.
    - apply (loopBody_invalid st _ _ Hpeek).
      apply padding_loop_drops_leading_zeros.
    - destruct n as [|n]; [reflexivity|].
      unfold afterPadding, peek, good, eof.
      cbn [repeat openStream rdbuf eofbit failbit negb andb snd].
      change (Byte.x00 :: repeat Byte.x00 n) with (repeat Byte.x00 (S n)).
      rewrite dropZeros_repeat. reflexivity. }
  destruct Hbody as [s' [Hbody Heof]].
  rewrite (decodeLoop_continue (S fuel) 0 st _ eq_refl eq_refl Hbody).
  cbn [decodeLoop in_]. rewrite Heof. reflexivity.
Qed.

End EveryRun.

(* ================================================================== *)
(** * The further properties on the sample format *)

Lemma decimal_count_in_range :
  parseCount [decimal 25] = inr 25 /\
  parseCount [decimal 2147483648] = inl (Exit (-1), [CountTooLarge "2147483648"]) /\
  parseCount [decimal (-7)] = inl (Exit (-1), [CountNotPositive "-7"]).
Proof. repeat split. Qed.

Lemma padding_loop_drops_leading_zeros_witness :
  skipPadding 4 (openStream [x00; x00; x07; x00]) = Some (openStream [x07; x00]) /\
  byteValue x07 <> 0.
Proof.
  destruct (padding_loop_drops_leading_zeros (openStream [x00; x00; x07; x00]))
    as [Hskip [zeros [_ [_ Hhead]]]].
  split; [exact Hskip|].
  apply (Hhead x07 [x00]). reflexivity.
Defined.

Lemma closing_count_is_accurate_witness :
  0 = 0 /\
  reportedCount (snd (main 6 (Sample.withLog Sample.mixedLog) ["decompressor"; "log"])) =
    Some (Z.of_nat (messageLines
            (snd (main 6 (Sample.withLog Sample.mixedLog) ["decompressor"; "log"])))) /\
  List.length
    (msgIndices (snd (main 6 (Sample.withLog Sample.mixedLog) ["decompressor"; "log"]))) =
    messageLines (snd (main 6 (Sample.withLog Sample.mixedLog) ["decompressor"; "log"])) /\
  paired (snd (main 6 (Sample.withLog Sample.mixedLog) ["decompressor"; "log"])) = true.
Proof.
  apply (closing_count_is_accurate 6 (Sample.withLog Sample.mixedLog)
           ["decompressor"; "log"] 0).
  reflexivity.
Defined.

Lemma print_limit_bounds_every_run_witness :
  (messageLines
     (snd (main 20 (Sample.withLog Sample.tenHellos) ["decompressor"; "log"; "3"]))
     <= Z.to_nat 3)%nat /\
  (List.length
     (msgIndices
        (snd (main 20 (Sample.withLog Sample.tenHellos) ["decompressor"; "log"; "3"])))
     <= Z.to_nat 3)%nat /\
  fst (main 20 (Sample.withLog Sample.tenHellos) ["decompressor"; "log"; "3"])
    <> Undefined SignedOverflow.
Proof.
  apply (print_limit_bounds_every_run 20 (Sample.withLog Sample.tenHellos)
           "decompressor" "log" "3" [] 3); [reflexivity|lia].
Defined.


Lemma allocation_failure_exits_witness :
  main 0 {| callocOk := false; fileContent := fun _ => None |}
    ["decompressor"; "log"; "many"] = (Exit (-1), [MallocFailed 67108864]) /\
  statusOf (fst (main 0 {| callocOk := false; fileContent := fun _ => None |}
                   ["decompressor"; "log"; "many"])) = Some 255.
Proof.
  apply (proj2 (allocation_failure_exits 0
                  {| callocOk := false; fileContent := fun _ => None |}
                  ["decompressor"; "log"; "many"])); [reflexivity|simpl; lia].
Defined.

Lemma opening_line_comes_first_witness :
  exists tail,
    snd (main 6 (Sample.withLog Sample.mixedLog) ["decompressor"; "log"]) =
      OpeningFile "log" :: tail /\
    Forall (fun o => isComplaint o = false) tail.
Proof.
  apply (opening_line_comes_first 6 (Sample.withLog Sample.mixedLog)
           "decompressor" "log" [] 0 Sample.mixedLog); reflexivity.
Defined.

Lemma how_decoding_stops_witness :
  -1 = -1 /\
  exists middle value,
    snd (main 5 (Sample.withLog (Sample.helloRecord ++ [x03])) ["decompressor"; "log"]) =
      OpeningFile "log" :: middle ++ [NoSuchEntryType value].
Proof.
  assert (Hended : fst (main 5 (Sample.withLog (Sample.helloRecord ++ [x03]))
                          ["decompressor"; "log"]) <> OutOfFuel)
    by (vm_compute; discriminate).
  exact (how_decoding_stops 5 (Sample.withLog (Sample.helloRecord ++ [x03]))
           "decompressor" "log" [] 0 (Sample.helloRecord ++ [x03])
           eq_refl eq_refl eq_refl Hended).
Defined.

Lemma generous_limit_is_no_limit_witness :
  main 20 (Sample.withLog Sample.tenHellos) ["decompressor"; "log"; "11"] =
    main 20 (Sample.withLog Sample.tenHellos) ["decompressor"; "log"].
Proof.
  apply (generous_limit_is_no_limit 20 (Sample.withLog Sample.tenHellos)
           "decompressor" "log" "11" [] 11); reflexivity.
Defined.

Lemma zero_filled_log_completes_witness :
  main 2 (Sample.withLog (repeat x00 3)) ["decompressor"; "log"] =
    (Return 0, [OpeningFile "log"; Complete 0]).
Proof.
  apply (zero_filled_log_completes (Sample.withLog (repeat x00 3))
           "decompressor" "log" 3); [reflexivity|reflexivity|reflexivity|lia].
Defined.

(* ================================================================== *)
(** * The running state across a run *)

Section RunningState.

Context {headers : Headers}.




End RunningState.

(* ================================================================== *)
(** * A numeral with text behind it *)

Lemma allDigits_of_uint (d : Decimal.uint) :
  allDigits (DecimalString.NilEmpty.string_of_uint d) = true.
Proof. induction d; cbn [DecimalString.NilEmpty.string_of_uint allDigits]; auto. Qed.

Lemma isNumeral_decimal (z : Z) : isNumeral (decimal z) = true.
Proof.
  assert (Huint : forall d, d <> Decimal.Nil ->
            isNumeral (DecimalString.NilEmpty.string_of_uint d) = true /\
            isNumeral (String "-" (DecimalString.NilEmpty.string_of_uint d)) = true).
  { intros d Hd.
    destruct (string_of_uint_starts d Hd) as [c [rest [Hs [Hdigit [Hspace [Hminus Hplus]]]]]].
    pose proof (allDigits_of_uint d) as Hall. rewrite Hs in *.
    unfold isNumeral, numericPart. split.
    - cbn [skipSpaces]. rewrite Hspace. cbn [takeSign]. rewrite Hminus, Hplus.
      cbn [snd startsWithDigit]. rewrite Hdigit, Hall. reflexivity.
    - cbn [skipSpaces]. change (isspace "-") with false. cbv iota.
      cbn [takeSign]. change ("-" =? "-")%char with true. cbv iota.
      cbn [snd startsWithDigit]. rewrite Hdigit, Hall. reflexivity. }
  unfold decimal. destruct z as [|p|p]; [reflexivity| |];
    pose proof (DecimalPos.Unsigned.to_uint_nonnil p) as Hnil;
    cbn [Z.to_int DecimalString.NilZero.string_of_int];
    rewrite (string_of_uint_nonnil _ Hnil); apply (Huint _ Hnil).
Qed.

Lemma skipSpaces_split (s : string) :
  exists ws, s = (ws ++ skipSpaces s)%string /\ allSpaces ws = true.
Proof.
  induction s as [|c s [ws [Hs Hws]]].
  - exists "". split; reflexivity.
  - cbn [skipSpaces]. destruct (isspace c) eqn:Hc.
    + exists (String c ws). cbn [append allSpaces]. rewrite Hc, Hws, <- Hs.
      split; reflexivity.
    + exists "". split; reflexivity.
Qed.

Lemma takeSign_split (s : string) :
  exists sign,
    s = (sign ++ snd (takeSign s))%string /\
    (sign = "" \/ sign = "+" \/ sign = "-").
Proof.
  destruct s as [|c s]; [exists ""; split; [reflexivity|auto]|].
  cbn [takeSign].
  destruct (Ascii.eqb_spec c "-") as [->|Hminus].
  - exists "-". split; [reflexivity|auto].
  - destruct (Ascii.eqb_spec c "+") as [->|Hplus].
    + exists "+". split; [reflexivity|auto].
    + exists "". split; [reflexivity|auto].
Qed.

Lemma skipSpaces_spaces (ws s : string) :
  allSpaces ws = true -> skipSpaces (ws ++ s) = skipSpaces s.
Proof.
  induction ws as [|c ws IH]; intros Hws; [reflexivity|].
  cbn [allSpaces] in Hws. apply andb_prop in Hws. destruct Hws as [Hc Hws].
  cbn [append skipSpaces]. rewrite Hc. apply IH, Hws.
Qed.

Lemma digit_is_no_space_or_sign (d : ascii) :
  isdigit d = true ->
  isspace d = false /\ (d =? "-")%char = false /\ (d =? "+")%char = false.
Proof.
  intros Hd. split; [|split].
  - unfold isdigit, isspace in *. lia.
  - destruct (Ascii.eqb_spec d "-") as [->|]; [discriminate|reflexivity].
  - destruct (Ascii.eqb_spec d "+") as [->|]; [discriminate|reflexivity].
Qed.

(** Having a numeric prefix, told without the functions of [stoi]. *)
Lemma hasNumericPrefix_iff (s : string) :
  hasNumericPrefix s = true <-> startsNumber s.
Proof.
  unfold hasNumericPrefix, numericPart, startsNumber. split.
  - intros Hstart.
    destruct (skipSpaces_split s) as [ws [Hs Hws]].
    destruct (takeSign_split (skipSpaces s)) as [sign [Hbody Hsign]].
    destruct (snd (takeSign (skipSpaces s))) as [|d rest]; [discriminate|].
    exists ws, sign, d, rest. rewrite <- Hbody. auto.
  - intros [ws [sign [d [rest [-> [Hws [Hsign Hd]]]]]]].
    destruct (digit_is_no_space_or_sign d Hd) as [Hspace [Hminus Hplus]].
    rewrite (skipSpaces_spaces _ _ Hws).
    destruct Hsign as [ -> | [ -> | -> ] ].
    + cbn [append skipSpaces]. rewrite Hspace. cbn [takeSign].
      rewrite Hminus, Hplus. exact Hd.
    + exact Hd.
    + exact Hd.
Qed.

Section NumeralWithText.

Context {headers : Headers}.

(** C10, as the code has it.  A count argument made of a decimal numeral
    and text behind it that starts with no digit, such as ["5x"], is not
    refused as unparsable: it is read as the integer [z] of the numeral.
    What happens next depends on [z] as it does without the text: for
    [0 <= z <= INT_MAX] the argument is accepted and [main] runs the loop
    with [z] as its print limit, the same run as for the numeral alone; a
    negative [z] is refused as not positive and a [z] outside [int] as too
    large.  The same goes for any numeral [strtol] reads to its end (white
    space, sign, leading zeros).  The complaint that the count is not a
    number is raised for exactly the arguments that do not begin like a
    number. *)
Theorem numeral_with_trailing_text :
  (forall z rest,
     startsWithDigit rest = false ->
     (forall more,
        parseCount ((decimal z ++ rest)%string :: more) =
          if (z <? INT_MIN) || (INT_MAX <? z)
          then inl (Exit (-1), [CountTooLarge (decimal z ++ rest)])
          else if z <? 0
               then inl (Exit (-1), [CountNotPositive (decimal z ++ rest)])
               else inr z) /\
     (0 <= z <= INT_MAX ->
      forall fuel env program file more,
        main fuel env (program :: file :: (decimal z ++ rest)%string :: more) =
          main fuel env (program :: file :: decimal z :: more) /\
        forall bytes,
          callocOk env = true ->
          fileContent env file = Some bytes ->
          main fuel env (program :: file :: (decimal z ++ rest)%string :: more) =
            finish (decodeLoop fuel z
                      (initialDecoder (openStream bytes) [OpeningFile file])))) /\
  (forall numeral rest,
     isNumeral numeral = true ->
     startsWithDigit rest = false ->
     stoi (numeral ++ rest) = stoi numeral) /\
  (forall arg more,
     parseCount (arg :: more) = inl (Exit (-1), [InvalidCount arg]) <->
     ~ startsNumber arg).
Proof.
  split; [|split].
  - intros z rest Hrest.
    pose proof (stoi_trailing (decimal z) rest (isNumeral_decimal z) Hrest) as Hsame.
    assert (Hcount : forall more,
              parseCount ((decimal z ++ rest)%string :: more) =
                if (z <? INT_MIN) || (INT_MAX <? z)
                then inl (Exit (-1), [CountTooLarge (decimal z ++ rest)])
                else if z <? 0
                     then inl (Exit (-1), [CountNotPositive (decimal z ++ rest)])
                     else inr z).
    { intros more. unfold parseCount. rewrite Hsame, stoi_decimal.
      destruct (INT_MIN <=? z) eqn:Hlow; destruct (z <=? INT_MAX) eqn:Hhigh; cbn [andb].
      - replace (z <? INT_MIN) with false by (symmetry; apply Z.ltb_ge; lia).
        replace (INT_MAX <? z) with false by (symmetry; apply Z.ltb_ge; lia).
        reflexivity.
      - replace (INT_MAX <? z) with true by (symmetry; apply Z.ltb_lt; lia).
        rewrite orb_true_r. reflexivity.
      - replace (z <? INT_MIN) with true by (symmetry; apply Z.ltb_lt; lia).
        reflexivity.
      - replace (z <? INT_MIN) with true by (symmetry; apply Z.ltb_lt; lia).
        reflexivity. }
    split; [exact Hcount|].
    intros Hz fuel env program file more.
    assert (Hin : parseCount ((decimal z ++ rest)%string :: more) = inr z).
    { rewrite Hcount.
      replace (z <? INT_MIN) with false by (symmetry; apply Z.ltb_ge; unfold INT_MIN; lia).
      replace (INT_MAX <? z) with false by (symmetry; apply Z.ltb_ge; lia).
      replace (z <? 0) with false by (symmetry; apply Z.ltb_ge; lia).
      reflexivity. }
    assert (Halone : parseCount (decimal z :: more) = inr z).
    { rewrite decimal_count.
      replace (z <? INT_MIN) with false by (symmetry; apply Z.ltb_ge; unfold INT_MIN; lia).
      replace (INT_MAX <? z) with false by (symmetry; apply Z.ltb_ge; lia).
      replace (z <? 0) with false by (symmetry; apply Z.ltb_ge; lia).
      reflexivity. }
    split.
    + unfold main. rewrite Hin, Halone. reflexivity.
    + intros bytes Hcalloc Hfile.
      apply (main_decodes fuel env program file _ z bytes Hcalloc Hin Hfile).
  - intros numeral rest. apply stoi_trailing.
  - intros arg more. rewrite <- hasNumericPrefix_iff.
    rewrite not_true_iff_false, <- stoi_invalid_iff. unfold parseCount.
    destruct (stoi arg) as [v| |].
    + destruct (v <? 0); split; discriminate.
    + split; reflexivity.
    + split; discriminate.
Qed.

End NumeralWithText.

(* ================================================================== *)
(** * The running state and the count argument on the sample format *)



(** The same run through [main]: the second letter is printed by the entry
    of format id 1 although its record carries a delta of zero, and its
    elapsed time is counted from the first message, across the
    checkpoint. *)
Example state_reaches_the_next_record :
  main 5 (Sample.withLog stateLog) ["decompressor"; "log"] =
  (Return 0,
   [OpeningFile "log"; MsgPrefix 0 50; MsgText "A"; FoundCheckpoint 1.0e9;
    MsgPrefix 1 50; MsgText "B"; Complete 2]).
Proof. reflexivity. Qed.

Lemma numeral_with_trailing_text_witness :
  parseCount ["5x"] = inr 5 /\
  main 20 (Sample.withLog Sample.tenHellos) ["decompressor"; "log"; "5x"] =
    main 20 (Sample.withLog Sample.tenHellos) ["decompressor"; "log"; "5"] /\
  main 20 (Sample.withLog Sample.tenHellos) ["decompressor"; "log"; "5x"] =
    finish (decodeLoop 20 5
              (initialDecoder (openStream Sample.tenHellos) [OpeningFile "log"])).
Proof.
  destruct (@numeral_with_trailing_text Sample.headers) as [Hdecimal _].
  destruct (Hdecimal 5 "x" eq_refl) as [Hcount Hmain].
  split; [exact (Hcount [])|].
  destruct (Hmain ltac:(unfold INT_MAX; lia) 20%nat (Sample.withLog Sample.tenHellos)
              "decompressor" "log" []) as [Hsame Hrun].
  split; [exact Hsame|].
  exact (Hrun Sample.tenHellos eq_refl eq_refl).
Defined.

(** The run for ["5x"], evaluated: five messages and no more. *)
Example five_x_prints_five :
  reportedCount
    (snd (main 20 (Sample.withLog Sample.tenHellos) ["decompressor"; "log"; "5x"]))
    = Some 5 /\
  messageLines
    (snd (main 20 (Sample.withLog Sample.tenHellos) ["decompressor"; "log"; "5x"]))
    = 5%nat.
Proof. split; reflexivity. Qed.

(** Arguments that have a numeric prefix and text behind it, and end the
    program with a usage error all the same. *)
Lemma numeric_prefix_yet_refused :
  hasNumericPrefix "2147483648x" = true /\
  main 20 (Sample.withLog Sample.tenHellos) ["decompressor"; "log"; "2147483648x"] =
    (Exit (-1), [CountTooLarge "2147483648x"]) /\
  hasNumericPrefix "-5x" = true /\
  main 20 (Sample.withLog Sample.tenHellos) ["decompressor"; "log"; "-5x"] =
    (Exit (-1), [CountNotPositive "-5x"]).
Proof. repeat split. Qed.
